(** * go-logger: a request/session scoped log aggregator

    Shallow embedding of the two variants of the aggregator found in the
    repository:

    - package [logger] (the root package: [Logger] with [OnLogEvent] and
      [OnError], [NewId], [Session.SeenError]), embedded in [PkgLogger];
    - package [log] (directory [log/]: [Logger] with [OnLogEvent] only),
      embedded in [PkgLog].

    Go code is translated into programs over a small set of atomic
    operations: the three [sync.Map] methods the code uses ([Load], [Store],
    [Delete]), allocation and access of [*Entry] cells, and the invocation
    of a configured callback.  A program is run either sequentially
    ([exec]) or as one goroutine of a pool under an explicit schedule
    ([run_schedule]). *)

From Stdlib Require Import ZArith.
From stdpp Require Import gmap strings list.

Open Scope string_scope.
Open Scope list_scope.

(** ** The machine *)

(** A [*Entry]: the address of a cell in the heap of entries. *)
Definition ptr := nat.

(** The two callback fields of a [Logger]. *)
Inductive Callback := CbOnLogEvent | CbOnError.

(** The dynamic values of Go's [interface{}] that [Data] may attach. *)
Inductive GoValue :=
| VNil
| VString (s : string)
| VInt (z : Z)
| VBool (b : bool).

(** [kv]: the key is kept through its [String()] rendering. *)
Record kv := mkKv { Key : string; Val : GoValue }.

(** The frame [runtime.Caller] and [runtime.FuncForPC] report for one
    call: function name, file, line and the [ok] flag. *)
Record Frame := mkFrame {
  fr_function : string;
  fr_file : string;
  fr_line : Z;
  fr_ok : bool
}.

Section Machine.
Context {Entry Log : Type} `{!Inhabited Entry}.

(** What a program can observe and change: the [sync.Map] of the logger
    ([logs]), the entries allocated so far ([heap], a pointer is an index
    into it) and the callback invocations made so far, oldest first
    ([calls]). *)
Record State := mkState {
  logs : gmap string (list ptr);
  heap : list Entry;
  calls : list (Callback * Log)
}.

Inductive Op : Type -> Type :=
| Load (key : string) : Op (option (list ptr))
| Store (key : string) (value : list ptr) : Op unit
| Delete (key : string) : Op unit
| New (e : Entry) : Op ptr
| Deref (p : ptr) : Op Entry
| Assign (p : ptr) (e : Entry) : Op unit
| Invoke (cb : Callback) (r : Log) : Op unit.

(** Programs: finite trees of atomic operations. *)
Inductive Prog (A : Type) : Type :=
| Ret (a : A)
| Vis {X : Type} (op : Op X) (k : X -> Prog A).
Global Arguments Ret {A} a.
Global Arguments Vis {A X} op k.

Fixpoint bind {A B} (m : Prog A) (f : A -> Prog B) : Prog B :=
  match m with
  | Ret a => f a
  | Vis op k => Vis op (fun x => bind (k x) f)
  end.

Definition call {X} (op : Op X) : Prog X := Vis op Ret.

(** The effect of one atomic operation.  Pointers only come from [New],
    so a [Deref] outside the heap does not arise; it reads the zero
    entry. *)
Definition perform {X} (op : Op X) (st : State) : X * State :=
  match op in Op T return T * State with
  | Load key => (logs st !! key, st)
  | Store key value =>
      (tt, mkState (<[key := value]> (logs st)) (heap st) (calls st))
  | Delete key => (tt, mkState (delete key (logs st)) (heap st) (calls st))
  | New e => (length (heap st), mkState (logs st) (heap st ++ [e]) (calls st))
  | Deref p => (default inhabitant (heap st !! p), st)
  | Assign p e => (tt, mkState (logs st) (<[p := e]> (heap st)) (calls st))
  | Invoke cb r => (tt, mkState (logs st) (heap st) (calls st ++ [(cb, r)]))
  end.

(** Sequential execution. *)
Fixpoint exec {A} (p : Prog A) (st : State) : A * State :=
  match p with
  | Ret a => (a, st)
  | Vis op k => let (x, st') := perform op st in exec (k x) st'
  end.

(** Goroutines: a pool of programs, and a schedule naming the goroutine
    that performs the next atomic operation. *)
Definition step_thread {A} (t : Prog A) (st : State) : Prog A * State :=
  match t with
  | Ret a => (Ret a, st)
  | Vis op k => let (x, st') := perform op st in (k x, st')
  end.

Fixpoint run_schedule {A} (sched : list nat) (pool : list (Prog A))
    (st : State) : list (Prog A) * State :=
  match sched with
  | [] => (pool, st)
  | i :: rest =>
      match pool !! i with
      | None => run_schedule rest pool st
      | Some t =>
          let (t', st') := step_thread t st in
          run_schedule rest (<[i := t']> pool) st'
      end
  end.

Definition finished {A} (t : Prog A) : bool :=
  match t with Ret _ => true | Vis _ _ => false end.

(** The entries buffered for [id]; no mapping reads as the nil slice. *)
Definition buffered (st : State) (id : string) : list ptr :=
  default [] (logs st !! id).

Definition entryAt (st : State) (p : ptr) : Entry :=
  default inhabitant (heap st !! p).
End Machine.

Global Arguments State : clear implicits.
Global Arguments Op : clear implicits.
Global Arguments Prog : clear implicits.

Notation "'let*' x ':=' m 'in' k" := (bind m (fun x => k))
  (at level 10, x name, m at level 100, k at level 200).

(** ** Helpers shared by both packages *)

(** [strings.LastIndex(s, c)] for a one-byte separator. *)
Fixpoint LastIndex (s : string) (c : Ascii.ascii) : option nat :=
  match s with
  | EmptyString => None
  | String a rest =>
      match LastIndex rest c with
      | Some i => Some (S i)
      | None => if Ascii.eqb a c then Some 0 else None
      end
  end.

(** The byte of ["/"]. *)
Definition slash : Ascii.ascii := Ascii.ascii_of_nat 47.

(** [function[idx+1 : len(function)]] when a slash occurs. *)
Definition stripPath (function : string) : string :=
  match LastIndex function slash with
  | Some idx => String.substring (idx + 1) (String.length function - (idx + 1)) function
  | None => function
  end.

Record logLevel := mkLevel { level_name : string }.
Definition levelInfo := mkLevel "Info".
Definition levelError := mkLevel "Error".
Definition levelDebug := mkLevel "Debug".
Definition logLevel_eqb (a b : logLevel) : bool :=
  String.eqb (level_name a) (level_name b).

Record logKind := mkKind { kind_name : string }.
Definition kindRequest := mkKind "request".
Definition kindSession := mkKind "session".
Definition logKind_eqb (a b : logKind) : bool :=
  String.eqb (kind_name a) (kind_name b).

(** ** Package [logger] (the root package) *)

Module PkgLogger.

Record Entry := mkEntry {
  ThreadId : string;
  Level : string;
  Function : string;
  File : string;
  Message : string;
  Line : Z;
  KeyVals : list kv
}.

(** [Entry{}] *)
Definition zeroEntry : Entry := mkEntry "" "" "" "" "" 0 [].
#[global] Instance Entry_inhabited : Inhabited Entry := populate zeroEntry.

Record Log := mkLog {
  Date : Z;
  Kind : logKind;
  Log_ThreadId : string;
  Route : string;
  Status : Z;
  Duration : Z;
  Entries : list ptr
}.

(** The configuration fields of [Logger]; a callback field holds [true]
    when it is not nil.  The [logs] field is the [logs] component of the
    machine state. *)
Record Logger := mkLogger {
  OnLogEvent : bool;
  OnError : bool;
  DisableDebug : bool;
  DisableRuntime : bool
}.

Abbreviation St := (State Entry Log).
Abbreviation P := (Prog Entry Log).

Definition Data (e : ptr) (k : string) (v : GoValue) : P ptr :=
  let* ent := call (Deref e) in
  let* _ := call (Assign e
    (mkEntry (ThreadId ent) (Level ent) (Function ent) (File ent)
       (Message ent) (Line ent) (KeyVals ent ++ [mkKv k v]))) in
  Ret e.

Definition getCallSite (l : Logger) (fr : Frame) : string * string * Z :=
  if DisableRuntime l then ("", "", 0%Z)
  else if negb (fr_ok fr)
    then ("Unknown", "Unable to obtain call site.", fr_line fr)
    else (stripPath (fr_function fr), fr_file fr, fr_line fr).

Definition insertEntry (e : ptr) : P unit :=
  let* ent := call (Deref e) in
  let* entries := call (Load (ThreadId ent)) in
  match entries with
  | None => call (Store (ThreadId ent) [e])
  | Some ee => call (Store (ThreadId ent) (ee ++ [e]))
  end.

(** The entry [logEntry] builds when the call is not suppressed. *)
Definition newEntry (l : Logger) (level : logLevel) (threadId msg : string)
    (fr : Frame) : Entry :=
  let '(function, file, line) := getCallSite l fr in
  mkEntry threadId (level_name level) function file msg line [].

Definition logEntry (l : Logger) (level : logLevel) (threadId msg : string)
    (fr : Frame) : P ptr :=
  if logLevel_eqb level levelDebug && DisableDebug l then
    call (New zeroEntry)
  else
    let* e := call (New (newEntry l level threadId msg fr)) in
    let* _ := insertEntry e in
    Ret e.

Definition Info l reqId msg fr := logEntry l levelInfo reqId msg fr.
Definition Error l reqId msg fr := logEntry l levelError reqId msg fr.
Definition Debug l reqId msg fr := logEntry l levelDebug reqId msg fr.

Definition logUUIDError (err : string) : P unit :=
  let* e := call (New (mkEntry "" (level_name levelError) "" ""
      ("couldn't generate UUID for logger thread: " ++ err) 0 [])) in
  insertEntry e.

(** [uuid.NewV4()] is an outside generator: [newId] is the rendering of
    the value it returned, [err] its error when it reported one. *)
Definition NewId (newId : string) (err : option string) : P string :=
  match err with
  | Some msg => let* _ := logUUIDError msg in Ret newId
  | None => Ret newId
  end.

(** The first statements of [end]: load the sequence of [threadId] and
    delete the mapping when there is one. *)
Definition takeAndClear (threadId : string) : P (list ptr) :=
  let* entries := call (Load threadId) in
  match entries with
  | Some ee => let* _ := call (Delete threadId) in Ret ee
  | None => Ret []
  end.

(** The loop of [end] that collects the entries whose level is Error. *)
Fixpoint collectErrors (ee errs : list ptr) : P (list ptr) :=
  match ee with
  | [] => Ret errs
  | e :: rest =>
      let* ent := call (Deref e) in
      if String.eqb (Level ent) (level_name levelError)
      then collectErrors rest (errs ++ [e])
      else collectErrors rest errs
  end.

Definition isNil (s : list ptr) : bool :=
  match s with [] => true | _ => false end.

(** [end]; [now] is the reading of [time.Now()].  The local [log] is
    threaded explicitly: the assignment [log.Entries = errs] changes the
    value later passed to [OnLogEvent]. *)
Definition end_ (l : Logger) (kind : logKind) (threadId route : string)
    (status duration : Z) (now : Z) : P unit :=
  let* ee := takeAndClear threadId in
  if logKind_eqb kind kindSession && Nat.eqb (length ee) 0 then Ret tt
  else
    let log := mkLog now kind threadId route status duration ee in
    let* log :=
      (if OnError l then
         let* errs := collectErrors ee [] in
         if negb (isNil errs) then
           let log := mkLog (Date log) (Kind log) (Log_ThreadId log)
                        (Route log) (Status log) (Duration log) errs in
           let* _ := call (Invoke CbOnError log) in
           Ret log
         else Ret log
       else Ret log) in
    if negb (OnLogEvent l) then Ret tt
    else call (Invoke CbOnLogEvent log).

Definition End l reqId route status duration now :=
  end_ l kindRequest reqId route status duration now.

Record Session := mkSession {
  logger : Logger;
  name : string;
  id : string
}.

Definition Sess (l : Logger) (name newId : string) (err : option string)
    : P Session :=
  let* i := NewId newId err in
  Ret (mkSession l name i).

Fixpoint anyError (ee : list ptr) : P bool :=
  match ee with
  | [] => Ret false
  | e :: rest =>
      let* ent := call (Deref e) in
      if String.eqb (Level ent) "Error" then Ret true else anyError rest
  end.

Definition SeenError (s : Session) : P bool :=
  let* entries := call (Load (id s)) in
  match entries with
  | None => Ret false
  | Some ee => anyError ee
  end.

Definition Session_Info s msg fr := logEntry (logger s) levelInfo (id s) msg fr.
Definition Session_Error s msg fr := logEntry (logger s) levelError (id s) msg fr.

Definition Session_End (s : Session) (now : Z) : P unit :=
  end_ (logger s) kindSession (id s) (name s) 0 0 now.

Definition emptyState : St := mkState ∅ [] [].

End PkgLogger.

(** ** Package [log] (directory [log/]) *)

Module PkgLog.

Record Logger := mkLogger {
  OnLogEvent : bool;
  DisableDebug : bool;
  DisableRuntime : bool
}.

(** [entry]; the [logger] field is nil ([None]) or points to the logger
    that built the entry. *)
Record entry := mkEntry {
  logger : option Logger;
  EntryId : string;
  ThreadId : string;
  Level : string;
  Function : string;
  File : string;
  Message : string;
  Line : Z;
  KeyVals : list kv
}.

(** [entry{}] *)
Definition zeroEntry : entry := mkEntry None "" "" "" "" "" "" 0 [].
#[global] Instance entry_inhabited : Inhabited entry := populate zeroEntry.

Record Log := mkLog {
  Date : Z;
  Kind : logKind;
  Log_ThreadId : string;
  Route : string;
  Status : Z;
  Duration : Z;
  Entries : list ptr
}.

Abbreviation St := (State entry Log).
Abbreviation P := (Prog entry Log).

Definition Data (e : ptr) (k : string) (v : GoValue) : P ptr :=
  let* ent := call (Deref e) in
  let* _ := call (Assign e
    (mkEntry (logger ent) (EntryId ent) (ThreadId ent) (Level ent)
       (Function ent) (File ent) (Message ent) (Line ent)
       (KeyVals ent ++ [mkKv k v]))) in
  Ret e.

(** The call-site block of [logEntry]. *)
Definition callSite (l : Logger) (fr : Frame) : string * string * Z :=
  if negb (DisableRuntime l) then
    if negb (fr_ok fr)
    then ("Unknown", "Unable to obtain call site.", fr_line fr)
    else (stripPath (fr_function fr), fr_file fr, fr_line fr)
  else ("", "", 0%Z).

(** The entry [logEntry] builds when it does not return early;
    [entryId] is what [gen.Base64(16)] produced. *)
Definition newEntry (l : Logger) (level : logLevel) (threadId msg : string)
    (fr : Frame) (entryId : string) : entry :=
  let '(function, file, line) := callSite l fr in
  mkEntry (Some l) entryId threadId (level_name level) function file msg
    line [].

Definition logEntry (l : Logger) (level : logLevel) (threadId msg : string)
    (fr : Frame) (entryId : string) : P ptr :=
  if DisableDebug l then
    call (New zeroEntry)
  else
    let* e := call (New (newEntry l level threadId msg fr entryId)) in
    let* entries := call (Load threadId) in
    match entries with
    | None => let* _ := call (Store threadId [e]) in Ret e
    | Some ee => let* _ := call (Store threadId (ee ++ [e])) in Ret e
    end.

Definition Info l reqId msg fr eid := logEntry l levelInfo reqId msg fr eid.
Definition Error l reqId msg fr eid := logEntry l levelError reqId msg fr eid.
Definition Debug l reqId msg fr eid := logEntry l levelDebug reqId msg fr eid.

(** The first statements of [end]. *)
Definition takeAndClear (threadId : string) : P (list ptr) :=
  let* entries := call (Load threadId) in
  match entries with
  | Some ee => let* _ := call (Delete threadId) in Ret ee
  | None => Ret []
  end.

Definition end_ (l : Logger) (kind : logKind) (threadId route : string)
    (status duration : Z) (now : Z) : P unit :=
  let* ee := takeAndClear threadId in
  if logKind_eqb kind kindSession && Nat.eqb (length ee) 0 then Ret tt
  else if negb (OnLogEvent l) then Ret tt
  else call (Invoke CbOnLogEvent
               (mkLog now kind threadId route status duration ee)).

Definition End l reqId route status duration now :=
  end_ l kindRequest reqId route status duration now.

Record session := mkSession {
  sess_logger : Logger;
  name : string;
  id : string
}.

(** [Sess]; [newId] is what [gen.Base64(16)] produced. *)
Definition Sess (l : Logger) (name newId : string) : session :=
  mkSession l name newId.

Definition session_Info s msg fr eid :=
  logEntry (sess_logger s) levelInfo (id s) msg fr eid.
Definition session_Error s msg fr eid :=
  logEntry (sess_logger s) levelError (id s) msg fr eid.
Definition session_Debug s msg fr eid :=
  logEntry (sess_logger s) levelDebug (id s) msg fr eid.

Definition session_End (s : session) (now : Z) : P unit :=
  end_ (sess_logger s) kindSession (id s) (name s) 0 0 now.

Definition emptyState : St := mkState ∅ [] [].

End PkgLog.

(** ** Scenarios: sequences of record calls and pools of goroutines *)

(** One record call made through a handle: level, message, and the frame
    the runtime reports for it. *)
Record RecordCall := mkCall {
  c_level : logLevel;
  c_msg : string;
  c_frame : Frame;
  c_entryId : string
}.

Module Scenario.

(** [cs] performed one after the other under [threadId], package
    [logger]; returns the entries handed back to the caller. *)
Fixpoint record_all (l : PkgLogger.Logger) (threadId : string)
    (cs : list RecordCall) : PkgLogger.P (list ptr) :=
  match cs with
  | [] => Ret []
  | c :: rest =>
      let* e := PkgLogger.logEntry l (c_level c) threadId (c_msg c)
                  (c_frame c) in
      let* es := record_all l threadId rest in
      Ret (e :: es)
  end.

(** The same under package [log]; [c_entryId] is the identifier
    [gen.Base64] draws for the call. *)
Fixpoint record_all_log (l : PkgLog.Logger) (threadId : string)
    (cs : list RecordCall) : PkgLog.P (list ptr) :=
  match cs with
  | [] => Ret []
  | c :: rest =>
      let* e := PkgLog.logEntry l (c_level c) threadId (c_msg c)
                  (c_frame c) (c_entryId c) in
      let* es := record_all_log l threadId rest in
      Ret (e :: es)
  end.

Definition suppressed (l : PkgLogger.Logger) (c : RecordCall) : bool :=
  logLevel_eqb (c_level c) levelDebug && PkgLogger.DisableDebug l.

Definition built (l : PkgLogger.Logger) (threadId : string)
    (c : RecordCall) : PkgLogger.Entry :=
  PkgLogger.newEntry l (c_level c) threadId (c_msg c) (c_frame c).

Definition built_log (l : PkgLog.Logger) (threadId : string)
    (c : RecordCall) : PkgLog.entry :=
  PkgLog.newEntry l (c_level c) threadId (c_msg c) (c_frame c)
    (c_entryId c).

(** A goroutine that records [cs] under [threadId]. *)
Definition caller (l : PkgLogger.Logger) (threadId : string)
    (cs : list RecordCall) : PkgLogger.P unit :=
  let* _ := record_all l threadId cs in Ret tt.

Definition caller_log (l : PkgLog.Logger) (threadId : string)
    (cs : list RecordCall) : PkgLog.P unit :=
  let* _ := record_all_log l threadId cs in Ret tt.

Definition frame0 : Frame := mkFrame "github.com/app/web.Handle" "web.go" 42 true.

Definition info (msg : string) : RecordCall := mkCall levelInfo msg frame0 "id".
Definition error (msg : string) : RecordCall := mkCall levelError msg frame0 "id".
Definition debug (msg : string) : RecordCall := mkCall levelDebug msg frame0 "id".

(** Both callbacks configured, nothing disabled. *)
Definition bothCallbacks : PkgLogger.Logger :=
  PkgLogger.mkLogger true true false false.

(** [Logger{OnLogEvent: f, DisableDebug: true}] of package [log]. *)
Definition debugOff_log : PkgLog.Logger := PkgLog.mkLogger true true false.

Definition plain_log : PkgLog.Logger := PkgLog.mkLogger true false false.

(** Entries of the record passed to the main callback, per invocation. *)
Definition mainEntries (cs : list (Callback * PkgLogger.Log))
    : list (list ptr) :=
  omap (fun c => match c with
                 | (CbOnLogEvent, r) => Some (PkgLogger.Entries r)
                 | _ => None
                 end) cs.

Definition errorEntries (cs : list (Callback * PkgLogger.Log))
    : list (list ptr) :=
  omap (fun c => match c with
                 | (CbOnError, r) => Some (PkgLogger.Entries r)
                 | _ => None
                 end) cs.

Definition mainEntries_log (cs : list (Callback * PkgLog.Log))
    : list (list ptr) :=
  omap (fun c => match c with
                 | (CbOnLogEvent, r) => Some (PkgLog.Entries r)
                 | _ => None
                 end) cs.

(** Callers that do not overlap: each runs to completion before the
    next starts. *)
Fixpoint callers_in_turn (l : PkgLogger.Logger) (threadId : string)
    (css : list (list RecordCall)) : PkgLogger.P unit :=
  match css with
  | [] => Ret tt
  | cs :: rest =>
      let* _ := caller l threadId cs in callers_in_turn l threadId rest
  end.

(** Two goroutines, each recording one Info entry under ["x"]. *)
Definition twoCallers : list (PkgLogger.P unit) :=
  [caller bothCallbacks "x" [info "a"]; caller bothCallbacks "x" [info "b"]].

Definition twoCallers_log : list (PkgLog.P unit) :=
  [caller_log plain_log "x" [info "a"]; caller_log plain_log "x" [info "b"]].

(** Both goroutines load the sequence of ["x"] before either stores. *)
Definition racy : list nat := [0; 0; 0; 1; 1; 1; 0; 1].
Definition racy_log : list nat := [0; 0; 1; 1; 0; 1].

(** The first goroutine finishes before the second starts. *)
Definition inTurn : list nat := [0; 0; 0; 0; 1; 1; 1; 1].
Definition inTurn_log : list nat := [0; 0; 0; 1; 1; 1].

(** The entries of the example of error-callback isolation. *)
Definition fourCalls : list RecordCall :=
  [info "a"; error "b"; debug "c"; error "d"].

(** A session handle of [bothCallbacks] with id ["s1"]. *)
Definition sess1 : PkgLogger.Session :=
  PkgLogger.mkSession bothCallbacks "job" "s1".

Definition noCallbacks : PkgLogger.Logger :=
  PkgLogger.mkLogger false false false false.

(** A store holding one Info entry under ["a"] and one Error entry under
    ["b"], package [logger] and package [log]. *)
Definition twoIds : PkgLogger.St :=
  (exec (let* _ := record_all noCallbacks "a" [info "x"] in
         record_all noCallbacks "b" [error "y"]) PkgLogger.emptyState).2.

Definition twoIds_log : PkgLog.St :=
  (exec (let* _ := record_all_log plain_log "a" [info "x"] in
         record_all_log plain_log "b" [error "y"]) PkgLog.emptyState).2.

End Scenario.

(** The Error-level entries among [ee], in the order of [ee]. *)
Definition errorsOf (st : PkgLogger.St) (ee : list ptr) : list ptr :=
  List.filter
    (fun p => String.eqb (PkgLogger.Level (entryAt st p)) "Error") ee.

(** ** The invariant of the store *)

Section StoreInvariant.
Context {Entry Log : Type} `{!Inhabited Entry}.
Variable threadIdOf : Entry -> string.

(** [p] is an allocated entry that carries the thread identifier [k]. *)
Definition entry_ok (st : State Entry Log) (k : string) (p : ptr) : Prop :=
  p < length (heap st) /\ threadIdOf (entryAt st p) = k.

(** Every stored sequence is non-empty, holds no entry twice, and holds
    only allocated entries recorded under its own key. *)
Definition store_inv (st : State Entry Log) : Prop :=
  map_Forall
    (fun k ee => ee <> [] /\ NoDup ee /\ Forall (entry_ok st k) ee)
    (logs st).

#[global] Instance entry_ok_dec st k p : Decision (entry_ok st k p).
Proof. unfold entry_ok. apply _. Defined.

#[global] Instance store_inv_dec st : Decision (store_inv st).
Proof. unfold store_inv. apply _. Defined.
End StoreInvariant.

(** ** Goroutines that record one entry: where a goroutine stands *)

Section Phases.
Context {Entry Log : Type} `{!Inhabited Entry}.
Variable threadIdOf : Entry -> string.
Implicit Types (t : Prog Entry Log unit) (st : State Entry Log).

(** The next operation of [t] is the [Store] of [v] under [tid], and [t]
    is done after it. *)
Definition at_store (tid : string) (v : list ptr) t : Prop :=
  finished t = false /\
  forall st,
    step_thread t st =
    (Ret tt, mkState (<[tid := v]> (logs st)) (heap st) (calls st)).

(** The next operation of [t] is the [Load] of [tid]; [t] then stores what
    it loaded followed by [p]. *)
Definition at_load (tid : string) (p : ptr) t : Prop :=
  finished t = false /\
  forall st, exists t1,
    step_thread t st = (t1, st) /\ at_store tid (buffered st tid ++ [p]) t1.

(** The next operation of [t] reads the thread identifier of [p]. *)
Definition at_deref (tid : string) (p : ptr) t : Prop :=
  finished t = false /\
  forall st, threadIdOf (entryAt st p) = tid ->
    exists t1, step_thread t st = (t1, st) /\ at_load tid p t1.

(** The next operation of [t] allocates [ent]; [direct] tells whether the
    [Load] follows at once (package [log]) or after a read of the thread
    identifier (package [logger]). *)
Definition at_new (direct : bool) (tid : string) (ent : Entry) t : Prop :=
  finished t = false /\
  forall st, exists t1,
    step_thread t st =
      (t1, mkState (logs st) (heap st ++ [ent]) (calls st)) /\
    if direct then at_load tid (length (heap st)) t1
    else at_deref tid (length (heap st)) t1.

(** Where a goroutine that records [ent] under [tid] stands in state [st],
    when the sequence of [tid] was [b] at the start: before its
    allocation; between allocation and store, its entry [p] allocated and
    the sequence still [b]; or done, the sequence being [b] followed by
    [p]. *)
Definition thread_inv (direct : bool) (tid : string) (ent : Entry)
    (b : list ptr) t st : Prop :=
  (at_new direct tid ent t /\ buffered st tid = b) \/
  (exists p,
     (at_deref tid p t \/ at_load tid p t \/ at_store tid (b ++ [p]) t) /\
     heap st !! p = Some ent /\ buffered st tid = b) \/
  (t = Ret tt /\
   exists p, heap st !! p = Some ent /\ logs st !! tid = Some (b ++ [p])).

(** What a step of a goroutine working under [tid] may change: it keeps
    the entries allocated so far, the callback history and the sequences
    of the other thread identifiers. *)
Definition guarantee (tid : string) st (st1 : State Entry Log) : Prop :=
  (forall k, k <> tid -> logs st1 !! k = logs st !! k) /\
  (forall p e, heap st !! p = Some e -> heap st1 !! p = Some e) /\
  calls st1 = calls st.
End Phases.

(** * Facts *)

(** ** The machine *)

Section MachineFacts.
Context {Entry Log : Type} `{!Inhabited Entry}.
Implicit Types st : State Entry Log.

Lemma exec_bind {A B} (m : Prog Entry Log A) (f : A -> Prog Entry Log B) st :
  exec (bind m f) st = exec (f (exec m st).1) (exec m st).2.
Proof.
  revert st. induction m as [a | X op k IH]; intros st; simpl; [done |].
  destruct (perform op st) as [x st']. apply IH.
Qed.

Lemma state_eta st : mkState (logs st) (heap st) (calls st) = st.
Proof. by destruct st. Qed.

Lemma entryAt_fresh st (e : Entry) (cs : list (Callback * Log))
    (m : gmap string (list ptr)) :
  entryAt (mkState m (heap st ++ [e]) cs) (length (heap st)) = e.
Proof. unfold entryAt; simpl. by rewrite list_lookup_middle. Qed.

Lemma buffered_insert st key v (h : list Entry) (cs : list (Callback * Log)) :
  buffered (mkState (<[key := v]> (logs st)) h cs) key = v.
Proof. unfold buffered; simpl. by rewrite lookup_insert_eq. Qed.

Lemma buffered_delete st key (h : list Entry) (cs : list (Callback * Log)) :
  buffered (mkState (delete key (logs st)) h cs) key = [].
Proof. unfold buffered; simpl. by rewrite lookup_delete_eq. Qed.

(** A goroutine scheduled alone behaves as under [exec]. *)
Lemma run_alone {A} (t : Prog Entry Log A) st :
  exists n,
    run_schedule (repeat 0 n) [t] st = ([Ret (exec t st).1], (exec t st).2).
Proof.
  revert st. induction t as [a | X op k IH]; intros st.
  - by exists 0.
  - destruct (IH (perform op st).1 (perform op st).2) as [n Hn].
    exists (S n). simpl. destruct (perform op st) as [x st1]. apply Hn.
Qed.
End MachineFacts.

(** ** Package [logger]: what each operation computes *)

Section LoggerFacts.
Import PkgLogger.
Implicit Types (st : St) (l : Logger).

Lemma newEntry_ThreadId l level threadId msg fr :
  ThreadId (newEntry l level threadId msg fr) = threadId.
Proof. unfold newEntry. by destruct (getCallSite l fr) as [[? ?] ?]. Qed.

Lemma newEntry_Level l level threadId msg fr :
  Level (newEntry l level threadId msg fr) = level_name level.
Proof. unfold newEntry. by destruct (getCallSite l fr) as [[? ?] ?]. Qed.

Lemma newEntry_Message l level threadId msg fr :
  Message (newEntry l level threadId msg fr) = msg.
Proof. unfold newEntry. by destruct (getCallSite l fr) as [[? ?] ?]. Qed.

Lemma insertEntry_exec e st :
  exec (insertEntry e) st =
  (tt, mkState
         (<[ThreadId (entryAt st e) :=
              buffered st (ThreadId (entryAt st e)) ++ [e]]> (logs st))
         (heap st) (calls st)).
Proof.
  unfold insertEntry, buffered, entryAt; simpl.
  by destruct (logs st !! _).
Qed.

Lemma logEntry_stored l level threadId msg fr st :
  logLevel_eqb level levelDebug && DisableDebug l = false ->
  exec (logEntry l level threadId msg fr) st =
  (length (heap st),
   mkState
     (<[threadId := buffered st threadId ++ [length (heap st)]]> (logs st))
     (heap st ++ [newEntry l level threadId msg fr]) (calls st)).
Proof.
  intros Hs. unfold logEntry. rewrite Hs.
  rewrite exec_bind. cbn [call exec perform fst snd].
  rewrite exec_bind, insertEntry_exec. cbn [exec fst snd heap calls logs].
  by rewrite entryAt_fresh, newEntry_ThreadId.
Qed.

Lemma logEntry_suppressed l level threadId msg fr st :
  logLevel_eqb level levelDebug && DisableDebug l = true ->
  exec (logEntry l level threadId msg fr) st =
  (length (heap st),
   mkState (logs st) (heap st ++ [zeroEntry]) (calls st)).
Proof. intros Hs. unfold logEntry. by rewrite Hs. Qed.

Lemma takeAndClear_exec threadId st :
  exec (takeAndClear threadId) st =
  (buffered st threadId,
   mkState (delete threadId (logs st)) (heap st) (calls st)).
Proof.
  unfold takeAndClear, buffered; simpl.
  destruct (logs st !! threadId) eqn:E; simpl; [done |].
  by rewrite delete_id, state_eta.
Qed.

Lemma collectErrors_exec ee errs st :
  exec (collectErrors ee errs) st = (errs ++ errorsOf st ee, st).
Proof.
  revert errs. induction ee as [| e rest IH]; intros errs; simpl.
  - by rewrite app_nil_r.
  - change (default zeroEntry (heap st !! e)) with (entryAt st e).
    destruct (String.eqb (Level (entryAt st e)) "Error") eqn:E;
      rewrite IH; [by rewrite <- app_assoc | done].
Qed.

Lemma anyError_exec ee st :
  exec (anyError ee) st = (negb (isNil (errorsOf st ee)), st).
Proof.
  induction ee as [| e rest IH]; simpl; [done |].
  change (default zeroEntry (heap st !! e)) with (entryAt st e).
  destruct (String.eqb (Level (entryAt st e)) "Error") eqn:E; [done |].
  apply IH.
Qed.

Lemma errorsOf_heap st m (cs : list (Callback * Log)) ee :
  errorsOf (mkState m (heap st) cs) ee = errorsOf st ee.
Proof. done. Qed.

(** [end] in closed form: the mapping is deleted, then at most two
    callback invocations are appended. *)
Lemma end_exec l kind threadId route status duration now st :
  exec (end_ l kind threadId route status duration now) st =
  let ee := buffered st threadId in
  let errs := errorsOf st ee in
  let log := mkLog now kind threadId route status duration in
  let cleared := mkState (delete threadId (logs st)) (heap st) in
  (tt,
   if logKind_eqb kind kindSession && Nat.eqb (length ee) 0
   then cleared (calls st)
   else if OnError l && negb (isNil errs)
     then cleared ((calls st ++ [(CbOnError, log errs)]) ++
                   (if OnLogEvent l then [(CbOnLogEvent, log errs)] else []))
     else cleared (calls st ++
                   (if OnLogEvent l then [(CbOnLogEvent, log ee)] else []))).
Proof.
  unfold end_. rewrite exec_bind, takeAndClear_exec. cbn [fst snd].
  destruct (logKind_eqb kind kindSession && _); [done |].
  rewrite exec_bind.
  destruct (OnError l); cbn [andb].
  - rewrite exec_bind, collectErrors_exec, errorsOf_heap.
    cbn [fst snd app].
    destruct (isNil (errorsOf st (buffered st threadId))); cbn [negb].
    + destruct (OnLogEvent l); simpl; [done |]. by rewrite app_nil_r.
    + destruct (OnLogEvent l); simpl; [done |]. by rewrite app_nil_r.
  - destruct (OnLogEvent l); simpl; [done |]. by rewrite app_nil_r.
Qed.
End LoggerFacts.

(** ** Package [log]: what each operation computes *)

Section LogFacts.
Import PkgLog.
Implicit Types (st : St) (l : Logger).

Lemma log_newEntry_Level l level threadId msg fr eid :
  Level (newEntry l level threadId msg fr eid) = level_name level.
Proof. unfold newEntry. by destruct (callSite l fr) as [[? ?] ?]. Qed.

Lemma log_logEntry_stored l level threadId msg fr eid st :
  DisableDebug l = false ->
  exec (logEntry l level threadId msg fr eid) st =
  (length (heap st),
   mkState
     (<[threadId := buffered st threadId ++ [length (heap st)]]> (logs st))
     (heap st ++ [newEntry l level threadId msg fr eid]) (calls st)).
Proof.
  intros Hd. unfold logEntry, buffered. rewrite Hd. simpl.
  by destruct (logs st !! threadId).
Qed.

(** With [DisableDebug] set, [logEntry] returns before looking at the
    level. *)
Lemma log_logEntry_disabled l level threadId msg fr eid st :
  DisableDebug l = true ->
  exec (logEntry l level threadId msg fr eid) st =
  (length (heap st),
   mkState (logs st) (heap st ++ [zeroEntry]) (calls st)).
Proof. intros Hd. unfold logEntry. by rewrite Hd. Qed.

Lemma log_takeAndClear_exec threadId st :
  exec (takeAndClear threadId) st =
  (buffered st threadId,
   mkState (delete threadId (logs st)) (heap st) (calls st)).
Proof.
  unfold takeAndClear, buffered; simpl.
  destruct (logs st !! threadId) eqn:E; simpl; [done |].
  by rewrite delete_id, state_eta.
Qed.

Lemma log_end_exec l kind threadId route status duration now st :
  exec (end_ l kind threadId route status duration now) st =
  let ee := buffered st threadId in
  let cleared := mkState (delete threadId (logs st)) (heap st) in
  (tt,
   if logKind_eqb kind kindSession && Nat.eqb (length ee) 0
   then cleared (calls st)
   else cleared (calls st ++
          (if OnLogEvent l
           then [(CbOnLogEvent,
                  mkLog now kind threadId route status duration ee)]
           else []))).
Proof.
  unfold end_. rewrite exec_bind, log_takeAndClear_exec. cbn [fst snd].
  destruct (logKind_eqb kind kindSession && _); [done |].
  destruct (OnLogEvent l); simpl; [done |]. by rewrite app_nil_r.
Qed.
End LogFacts.

(** ** Sequences of record calls *)

Section ScenarioFacts.
Import Scenario.

(** The state reached by [record_all] when no call is suppressed: one
    cell per call, in call order, and their addresses appended to the
    sequence of [threadId]. *)
Lemma record_all_exec l threadId cs (st : PkgLogger.St) :
  forallb (fun c => negb (suppressed l c)) cs = true ->
  (exec (record_all l threadId cs) st).1 =
    seq (length (heap st)) (length cs) /\
  heap (exec (record_all l threadId cs) st).2 =
    heap st ++ map (built l threadId) cs /\
  buffered (exec (record_all l threadId cs) st).2 threadId =
    buffered st threadId ++ seq (length (heap st)) (length cs) /\
  calls (exec (record_all l threadId cs) st).2 = calls st /\
  (forall other, other <> threadId ->
     logs (exec (record_all l threadId cs) st).2 !! other =
     logs st !! other).
Proof.
  revert st. induction cs as [| c rest IH]; intros st Hs; simpl in Hs.
  - simpl. by rewrite !app_nil_r.
  - apply andb_prop in Hs as [Hc Hrest].
    apply negb_true_iff in Hc. unfold suppressed in Hc.
    cbn [record_all].
    rewrite exec_bind, (logEntry_stored _ _ _ _ _ _ Hc).
    cbn [fst snd]. rewrite exec_bind. cbn [exec fst snd].
    fold (built l threadId c).
    set (st1 := mkState _ _ _).
    destruct (IH st1 Hrest) as (Hr & Hh & Hb & Hc' & Ho).
    rewrite Hr, Hh, Hb, Hc'. subst st1. cbn [heap calls logs].
    rewrite length_app, buffered_insert, <- !app_assoc. cbn [length app map].
    rewrite Nat.add_1_r. repeat split; try done.
    intros other Hne. rewrite Ho by done. simpl.
    by rewrite lookup_insert_ne.
Qed.
Lemma record_all_log_exec l threadId cs (st : PkgLog.St) :
  PkgLog.DisableDebug l = false ->
  (exec (record_all_log l threadId cs) st).1 =
    seq (length (heap st)) (length cs) /\
  heap (exec (record_all_log l threadId cs) st).2 =
    heap st ++ map (built_log l threadId) cs /\
  buffered (exec (record_all_log l threadId cs) st).2 threadId =
    buffered st threadId ++ seq (length (heap st)) (length cs) /\
  calls (exec (record_all_log l threadId cs) st).2 = calls st /\
  (forall other, other <> threadId ->
     logs (exec (record_all_log l threadId cs) st).2 !! other =
     logs st !! other).
Proof.
  intros Hd. revert st. induction cs as [| c rest IH]; intros st.
  - simpl. by rewrite !app_nil_r.
  - cbn [record_all_log].
    rewrite exec_bind, (log_logEntry_stored _ _ _ _ _ _ _ Hd).
    cbn [fst snd]. rewrite exec_bind. cbn [exec fst snd].
    fold (built_log l threadId c).
    set (st1 := mkState _ _ _).
    destruct (IH st1) as (Hr & Hh & Hb & Hc' & Ho).
    rewrite Hr, Hh, Hb, Hc'. subst st1. cbn [heap calls logs].
    rewrite length_app, buffered_insert, <- !app_assoc. cbn [length app map].
    rewrite Nat.add_1_r. repeat split; try done.
    intros other Hne. rewrite Ho by done. simpl.
    by rewrite lookup_insert_ne.
Qed.

(** Reading back freshly allocated cells. *)
Lemma entries_of_fresh {Entry Log} `{!Inhabited Entry}
    (st : State Entry Log) (h : list Entry) :
  heap st = h ->
  forall (pre new : list Entry), h = pre ++ new ->
  map (entryAt st) (seq (length pre) (length new)) = new.
Proof.
  intros Hh pre new ->. revert pre Hh.
  induction new as [| x new IH]; intros pre Hh; [done |].
  cbn [length seq map]. f_equal.
  - unfold entryAt. by rewrite Hh, list_lookup_middle.
  - specialize (IH (pre ++ [x])). rewrite length_app, Nat.add_1_r in IH.
    apply IH. by rewrite <- app_assoc.
Qed.
End ScenarioFacts.

(** ** Finish: what is emitted and what is left in the store *)

Section FinishFacts.
Implicit Types (l : PkgLogger.Logger) (g : PkgLog.Logger).
Implicit Types (st : PkgLogger.St) (sg : PkgLog.St).

Lemma end_logs l kind threadId route status duration now st :
  logs (exec (PkgLogger.end_ l kind threadId route status duration now) st).2
  = delete threadId (logs st).
Proof.
  rewrite end_exec. cbv zeta. cbn [snd].
  by repeat match goal with |- context [if ?b then _ else _] => destruct b end.
Qed.

Lemma end_heap l kind threadId route status duration now st :
  heap (exec (PkgLogger.end_ l kind threadId route status duration now) st).2
  = heap st.
Proof.
  rewrite end_exec. cbv zeta. cbn [snd].
  by repeat match goal with |- context [if ?b then _ else _] => destruct b end.
Qed.

Lemma log_end_logs g kind threadId route status duration now sg :
  logs (exec (PkgLog.end_ g kind threadId route status duration now) sg).2
  = delete threadId (logs sg).
Proof.
  rewrite log_end_exec. cbv zeta. cbn [snd].
  by repeat match goal with |- context [if ?b then _ else _] => destruct b end.
Qed.

Lemma log_end_heap g kind threadId route status duration now sg :
  heap (exec (PkgLog.end_ g kind threadId route status duration now) sg).2
  = heap sg.
Proof.
  rewrite log_end_exec. cbv zeta. cbn [snd].
  by repeat match goal with |- context [if ?b then _ else _] => destruct b end.
Qed.
End FinishFacts.

(** C3. A finish of kind Session whose drained sequence is empty returns
    without invoking the main callback or the error callback, whatever the
    configuration of the logger; this holds in both packages. *)
Theorem session_empty_invokes_nothing
    (l : PkgLogger.Logger) (l' : PkgLog.Logger)
    (threadId route : string) (status duration now : Z)
    (st : PkgLogger.St) (st' : PkgLog.St) :
  buffered st threadId = [] ->
  buffered st' threadId = [] ->
  calls (exec (PkgLogger.end_ l kindSession threadId route status duration now)
           st).2 = calls st /\
  calls (exec (PkgLog.end_ l' kindSession threadId route status duration now)
           st').2 = calls st'.
Proof.
  intros He He'. rewrite end_exec, log_end_exec. cbv zeta.
  by rewrite He, He'.
Qed.

Lemma session_empty_invokes_nothing_witness :
  calls (exec (PkgLogger.end_ Scenario.bothCallbacks kindSession "s" "job" 0 0 7)
           PkgLogger.emptyState).2 = [] /\
  calls (exec (PkgLog.end_ Scenario.plain_log kindSession "s" "job" 0 0 7)
           PkgLog.emptyState).2 = [].
Proof.
  apply (session_empty_invokes_nothing Scenario.bothCallbacks Scenario.plain_log
           "s" "job" 0 0 7 PkgLogger.emptyState PkgLog.emptyState);
    reflexivity.
Defined.

(** C10. Every finish removes the mapping of its id from the store, also
    when no callback is configured or the emission is suppressed, and
    leaves the mapping of every other id as it was; the buffered entries
    are not kept for a later finish.  Both packages. *)
Theorem finish_removes_only_its_id
    (l : PkgLogger.Logger) (l' : PkgLog.Logger) (kind : logKind)
    (threadId route other : string) (status duration now : Z)
    (st : PkgLogger.St) (st' : PkgLog.St) :
  other <> threadId ->
  let s1 := (exec (PkgLogger.end_ l kind threadId route status duration now)
               st).2 in
  let s1' := (exec (PkgLog.end_ l' kind threadId route status duration now)
                st').2 in
  (logs s1 !! threadId = None /\ buffered s1 threadId = [] /\
   logs s1 !! other = logs st !! other) /\
  (logs s1' !! threadId = None /\ buffered s1' threadId = [] /\
   logs s1' !! other = logs st' !! other).
Proof.
  intros Hne. cbv zeta. unfold buffered.
  rewrite end_logs, log_end_logs.
  rewrite !lookup_delete_eq, !lookup_delete_ne by done. done.
Qed.

Lemma finish_removes_only_its_id_witness :
  let s1 := (exec (PkgLogger.end_ Scenario.noCallbacks kindSession "a" "job"
                     0 0 7) Scenario.twoIds).2 in
  let s1' := (exec (PkgLog.end_ Scenario.plain_log kindSession "a" "job"
                      0 0 7) Scenario.twoIds_log).2 in
  (logs s1 !! "a" = None /\ buffered s1 "a" = [] /\
   logs s1 !! "b" = logs Scenario.twoIds !! "b") /\
  (logs s1' !! "a" = None /\ buffered s1' "a" = [] /\
   logs s1' !! "b" = logs Scenario.twoIds_log !! "b").
Proof.
  apply (finish_removes_only_its_id Scenario.noCallbacks Scenario.plain_log
           kindSession "a" "job" "b" 0 0 7 Scenario.twoIds Scenario.twoIds_log).
  discriminate.
Defined.

Example twoIds_contents :
  logs Scenario.twoIds !! "a" = Some [0] /\
  logs Scenario.twoIds !! "b" = Some [1] /\
  logs Scenario.twoIds_log !! "a" = Some [0] /\
  logs Scenario.twoIds_log !! "b" = Some [1].
Proof. vm_compute. done. Qed.

(** C4. Take-and-clear returns the buffered sequence of the id and removes
    its mapping: done twice in a row, it yields the buffered sequence and
    then the empty one.  So after a finish the id has no mapping, and a
    second finish with the same id drains the empty sequence: it emits
    nothing for kind Session and, for any other kind, a record without
    entries when the main callback is configured.  Both packages. *)
Theorem take_and_clear_twice
    (l : PkgLogger.Logger) (l' : PkgLog.Logger) (kind kind2 : logKind)
    (threadId route route2 : string)
    (status duration now status2 duration2 now2 : Z)
    (st : PkgLogger.St) (st' : PkgLog.St) :
  let t1 := exec (PkgLogger.takeAndClear threadId) st in
  let t2 := exec (PkgLogger.takeAndClear threadId) t1.2 in
  let f1 := (exec (PkgLogger.end_ l kind threadId route status duration now)
               st).2 in
  let f2 := (exec (PkgLogger.end_ l kind2 threadId route2 status2 duration2
                     now2) f1).2 in
  let t1' := exec (PkgLog.takeAndClear threadId) st' in
  let t2' := exec (PkgLog.takeAndClear threadId) t1'.2 in
  let f1' := (exec (PkgLog.end_ l' kind threadId route status duration now)
                st').2 in
  let f2' := (exec (PkgLog.end_ l' kind2 threadId route2 status2 duration2
                      now2) f1').2 in
  (t1.1 = buffered st threadId /\ logs t1.2 !! threadId = None /\
   t2.1 = [] /\ t2.2 = t1.2 /\
   logs f1 !! threadId = None /\
   (exec (PkgLogger.takeAndClear threadId) f1).1 = [] /\
   calls f2 = calls f1 ++
     (if logKind_eqb kind2 kindSession then []
      else if PkgLogger.OnLogEvent l
        then [(CbOnLogEvent,
               PkgLogger.mkLog now2 kind2 threadId route2 status2 duration2 [])]
        else [])) /\
  (t1'.1 = buffered st' threadId /\ logs t1'.2 !! threadId = None /\
   t2'.1 = [] /\ t2'.2 = t1'.2 /\
   logs f1' !! threadId = None /\
   (exec (PkgLog.takeAndClear threadId) f1').1 = [] /\
   calls f2' = calls f1' ++
     (if logKind_eqb kind2 kindSession then []
      else if PkgLog.OnLogEvent l'
        then [(CbOnLogEvent,
               PkgLog.mkLog now2 kind2 threadId route2 status2 duration2 [])]
        else [])).
Proof.
  cbv zeta. rewrite !takeAndClear_exec, !log_takeAndClear_exec. cbn [fst snd].
  rewrite !buffered_delete. cbn [logs heap calls].
  rewrite !lookup_delete_eq, !delete_delete_eq.
  split.
  - repeat split; try done.
    + by rewrite end_logs, lookup_delete_eq.
    + unfold buffered. by rewrite end_logs, lookup_delete_eq.
    + rewrite (end_exec l kind2). cbv zeta.
      assert (Hb : buffered
        (exec (PkgLogger.end_ l kind threadId route status duration now) st).2
        threadId = []).
      { unfold buffered. by rewrite end_logs, lookup_delete_eq. }
      rewrite Hb. cbn [errorsOf List.filter PkgLogger.isNil negb length
        Nat.eqb andb]. rewrite !andb_true_r, andb_false_r.
      destruct (logKind_eqb kind2 kindSession); cbn [snd calls];
        [by rewrite app_nil_r | done].
  - repeat split; try done.
    + by rewrite log_end_logs, lookup_delete_eq.
    + unfold buffered. by rewrite log_end_logs, lookup_delete_eq.
    + rewrite (log_end_exec l' kind2). cbv zeta.
      assert (Hb : buffered
        (exec (PkgLog.end_ l' kind threadId route status duration now) st').2
        threadId = []).
      { unfold buffered. by rewrite log_end_logs, lookup_delete_eq. }
      rewrite Hb. cbn [length Nat.eqb]. rewrite !andb_true_r.
      destruct (logKind_eqb kind2 kindSession); cbn [snd calls];
        [by rewrite app_nil_r | done].
Qed.

Lemma logUUIDError_exec (msg : string) (st : PkgLogger.St) :
  exec (PkgLogger.logUUIDError msg) st =
  (tt,
   mkState
     (<["" := buffered st "" ++ [length (heap st)]]> (logs st))
     (heap st ++
        [PkgLogger.mkEntry "" "Error" "" ""
           ("couldn't generate UUID for logger thread: " ++ msg) 0 []])
     (calls st)).
Proof.
  unfold PkgLogger.logUUIDError.
  rewrite exec_bind. cbn [call exec perform fst snd].
  rewrite insertEntry_exec. by rewrite entryAt_fresh.
Qed.

(** C7. When the generator reports an error, [NewId] does not fail and has
    no error result: it allocates one entry of level Error with the empty
    thread identifier and the generator's message, appends it to the
    sequence stored under the empty identifier through [insertEntry],
    invokes no callback, and returns the string the generator produced,
    whatever it is. *)
Theorem NewId_generator_error (newId msg : string) (st : PkgLogger.St) :
  exec (PkgLogger.NewId newId (Some msg)) st =
  (newId,
   mkState
     (<["" := buffered st "" ++ [length (heap st)]]> (logs st))
     (heap st ++
        [PkgLogger.mkEntry "" "Error" "" ""
           ("couldn't generate UUID for logger thread: " ++ msg) 0 []])
     (calls st)).
Proof.
  unfold PkgLogger.NewId. by rewrite exec_bind, logUUIDError_exec.
Qed.

(** Handle creation: [Sess] returns a session carrying the generator's
    string, with or without a generator error. *)
Lemma Sess_id (l : PkgLogger.Logger) (name newId : string)
    (err : option string) (st : PkgLogger.St) :
  (exec (PkgLogger.Sess l name newId err) st).1 =
    PkgLogger.mkSession l name newId.
Proof.
  unfold PkgLogger.Sess, PkgLogger.NewId. rewrite exec_bind.
  destruct err; [| done]. by rewrite exec_bind, logUUIDError_exec.
Qed.

(** C8. [SeenError] returns true exactly when the id of the session has a
    mapping whose sequence holds an entry of level Error (so false when
    there is no mapping), and it leaves the whole state as it was: the
    store, the entries and the callback history. *)
Theorem SeenError_peek (s : PkgLogger.Session) (st : PkgLogger.St) :
  (exec (PkgLogger.SeenError s) st).2 = st /\
  ((exec (PkgLogger.SeenError s) st).1 = true <->
   exists ee p, logs st !! PkgLogger.id s = Some ee /\ p ∈ ee /\
                PkgLogger.Level (entryAt st p) = "Error").
Proof.
  unfold PkgLogger.SeenError. simpl.
  destruct (logs st !! PkgLogger.id s) as [ee |] eqn:E.
  - rewrite anyError_exec. split; [done |]. cbn [fst].
    split.
    + intros Hn. destruct (errorsOf st ee) as [| p rest] eqn:Ef; [done |].
      assert (Hin : In p (errorsOf st ee)) by (rewrite Ef; left; done).
      apply filter_In in Hin as [Hin Hlev].
      exists ee, p. split; [done |]. split.
      * by apply list_elem_of_In.
      * by apply String.eqb_eq.
    + intros (ee0 & p & Hee & Hin & Hlev). injection Hee as <-.
      assert (Hf : In p (errorsOf st ee)).
      { apply filter_In. split; [by apply list_elem_of_In |].
        by apply String.eqb_eq. }
      by destruct (errorsOf st ee).
  - split; [done |]. cbn [fst]. split; [done |].
    by intros (ee & p & Hee & _).
Qed.

Example SeenError_before_end :
  let recorded :=
    (exec (let* _ := PkgLogger.Session_Info Scenario.sess1 "a" Scenario.frame0 in
           PkgLogger.Session_Error Scenario.sess1 "b" Scenario.frame0)
       PkgLogger.emptyState).2 in
  (exec (PkgLogger.SeenError Scenario.sess1) PkgLogger.emptyState).1 = false /\
  (exec (PkgLogger.SeenError Scenario.sess1) recorded).1 = true /\
  buffered (exec (PkgLogger.SeenError Scenario.sess1) recorded).2 "s1" = [0; 1].
Proof. vm_compute. done. Qed.

(** C9. N record calls made one after the other under one id, none of them
    suppressed, leave N new entries at the end of the sequence of that id,
    in call order: take-and-clear then returns what was buffered before
    followed by exactly the entries handed back by the calls, and these
    are the entries built from the calls, first call first.  From an id
    without buffered entries the drained sequence is those N entries.
    Both packages. *)
Theorem append_ordering
    (l : PkgLogger.Logger) (l' : PkgLog.Logger) (threadId : string)
    (cs : list RecordCall) (st : PkgLogger.St) (st' : PkgLog.St) :
  forallb (fun c => negb (Scenario.suppressed l c)) cs = true ->
  PkgLog.DisableDebug l' = false ->
  let r := exec (Scenario.record_all l threadId cs) st in
  let d := exec (PkgLogger.takeAndClear threadId) r.2 in
  let r' := exec (Scenario.record_all_log l' threadId cs) st' in
  let d' := exec (PkgLog.takeAndClear threadId) r'.2 in
  (d.1 = buffered st threadId ++ r.1 /\ length r.1 = length cs /\
   map (entryAt d.2) r.1 = map (Scenario.built l threadId) cs) /\
  (d'.1 = buffered st' threadId ++ r'.1 /\ length r'.1 = length cs /\
   map (entryAt d'.2) r'.1 = map (Scenario.built_log l' threadId) cs).
Proof.
  intros Hs Hd. cbv zeta.
  rewrite takeAndClear_exec, log_takeAndClear_exec. cbn [fst snd].
  destruct (record_all_exec l threadId cs st Hs) as (Hr & Hh & Hb & _ & _).
  destruct (record_all_log_exec l' threadId cs st' Hd) as (Hr' & Hh' & Hb' & _ & _).
  rewrite Hb, Hb', Hr, Hr', !length_seq.
  split; (split; [done |]; split; [done |]).
  - rewrite <- (length_map (Scenario.built l threadId) cs).
    eapply entries_of_fresh; [| reflexivity]. exact Hh.
  - rewrite <- (length_map (Scenario.built_log l' threadId) cs).
    eapply entries_of_fresh; [| reflexivity]. exact Hh'.
Qed.

Lemma append_ordering_witness :
  let cs := [Scenario.info "a"; Scenario.error "b"; Scenario.debug "c"] in
  let r := exec (Scenario.record_all Scenario.bothCallbacks "t" cs)
             PkgLogger.emptyState in
  let d := exec (PkgLogger.takeAndClear "t") r.2 in
  let r' := exec (Scenario.record_all_log Scenario.plain_log "t" cs)
              PkgLog.emptyState in
  let d' := exec (PkgLog.takeAndClear "t") r'.2 in
  (d.1 = buffered PkgLogger.emptyState "t" ++ r.1 /\ length r.1 = length cs /\
   map (entryAt d.2) r.1 = map (Scenario.built Scenario.bothCallbacks "t") cs) /\
  (d'.1 = buffered PkgLog.emptyState "t" ++ r'.1 /\ length r'.1 = length cs /\
   map (entryAt d'.2) r'.1 = map (Scenario.built_log Scenario.plain_log "t") cs).
Proof.
  apply (append_ordering Scenario.bothCallbacks Scenario.plain_log "t"
           [Scenario.info "a"; Scenario.error "b"; Scenario.debug "c"]
           PkgLogger.emptyState PkgLog.emptyState); reflexivity.
Defined.

Example append_ordering_run :
  (exec (let* _ := Scenario.record_all Scenario.bothCallbacks "t"
                     [Scenario.info "a"; Scenario.error "b"; Scenario.debug "c"] in
         PkgLogger.takeAndClear "t") PkgLogger.emptyState).1 = [0; 1; 2].
Proof. vm_compute. reflexivity. Qed.

(** ** The error callback and the record passed to the main callback *)

Section EmissionFacts.
Import PkgLogger.
Implicit Types (st : St) (l : Logger).

Lemma errorsOf_sub st ee : length (errorsOf st ee) <= length ee.
Proof. apply List.filter_length_le. Qed.

(** The error callback receives exactly the Error-level entries, in their
    order, whenever there is one. *)
Lemma end_error_callback l kind threadId route status duration now st :
  OnError l = true ->
  errorsOf st (buffered st threadId) <> [] ->
  Scenario.errorEntries
    (drop (length (calls st))
       (calls (exec (end_ l kind threadId route status duration now) st).2))
  = [errorsOf st (buffered st threadId)].
Proof.
  intros He Hn. rewrite end_exec. cbv zeta. rewrite He.
  assert (Hl : Nat.eqb (length (buffered st threadId)) 0 = false).
  { apply Nat.eqb_neq. intros H0.
    pose proof (errorsOf_sub st (buffered st threadId)) as Hle.
    destruct (errorsOf st (buffered st threadId)); [done |].
    simpl in Hle. lia. }
  rewrite Hl, andb_false_r.
  destruct (errorsOf st (buffered st threadId)) as [| p rest] eqn:Ef;
    [done |].
  cbn [isNil negb andb snd calls]. rewrite <- app_assoc, drop_app_length.
  by destruct (OnLogEvent l).
Qed.

(** The main callback is invoked once by every finish of kind Request,
    with the supplied route, status and duration; its entries are the
    drained sequence when the error callback is absent or there is no
    Error-level entry. *)
Lemma request_always_emitted l threadId route status duration now st :
  OnLogEvent l = true ->
  exists es,
    omap (fun c => match c with
                   | (CbOnLogEvent, r) => Some r
                   | _ => None
                   end)
      (drop (length (calls st))
         (calls (exec (End l threadId route status duration now) st).2)) =
    [mkLog now kindRequest threadId route status duration es] /\
    (OnError l = false \/ errorsOf st (buffered st threadId) = [] ->
     es = buffered st threadId).
Proof.
  intros Hm. unfold End. rewrite end_exec. cbv zeta. rewrite Hm.
  cbn [logKind_eqb kindRequest kindSession kind_name String.eqb Ascii.eqb
       Bool.eqb andb].
  destruct (OnError l && negb (isNil (errorsOf st (buffered st threadId))))
    eqn:E; cbn [snd calls].
  - exists (errorsOf st (buffered st threadId)). split.
    + rewrite <- app_assoc, drop_app_length. done.
    + apply andb_prop in E as [E1 E2]. intros [H | H]; [congruence |].
      rewrite H in E2. done.
  - exists (buffered st threadId). split; [| done].
    rewrite drop_app_length. done.
Qed.

Lemma Data_exec (e : ptr) k v st :
  exec (Data e k v) st =
  (e, mkState (logs st)
        (<[e := mkEntry (ThreadId (entryAt st e)) (Level (entryAt st e))
                  (Function (entryAt st e)) (File (entryAt st e))
                  (Message (entryAt st e)) (Line (entryAt st e))
                  (KeyVals (entryAt st e) ++ [mkKv k v])]> (heap st))
        (calls st)).
Proof. done. Qed.

(** Package [logger] suppresses the Debug level only: with debug entries
    disabled a Debug call stores nothing and hands back a fresh zero
    entry, on which [Data] works without touching the store, while Info
    and Error calls are built and stored. *)
Lemma logger_suppresses_debug_only l threadId msg fr k v st :
  DisableDebug l = true ->
  let d := exec (Debug l threadId msg fr) st in
  (logs d.2 = logs st /\ calls d.2 = calls st /\
   d.1 = length (heap st) /\ entryAt d.2 d.1 = zeroEntry /\
   (exec (Data d.1 k v) d.2).1 = d.1 /\
   logs (exec (Data d.1 k v) d.2).2 = logs st /\
   KeyVals (entryAt (exec (Data d.1 k v) d.2).2 d.1) = [mkKv k v]) /\
  (forall level, level = levelInfo \/ level = levelError ->
     let r := exec (logEntry l level threadId msg fr) st in
     buffered r.2 threadId = buffered st threadId ++ [r.1] /\
     entryAt r.2 r.1 = newEntry l level threadId msg fr).
Proof.
  intros Hd. cbv zeta. split.
  - unfold Debug. rewrite logEntry_suppressed by (by rewrite Hd).
    cbn [fst snd logs calls]. rewrite entryAt_fresh, Data_exec.
    cbn [fst snd logs heap]. repeat split; try done.
    unfold entryAt. cbn [heap].
    rewrite list_lookup_insert_eq by (rewrite length_app; simpl; lia).
    by rewrite list_lookup_middle.
  - intros level Hl.
    rewrite logEntry_stored by (by destruct Hl as [-> | ->]).
    cbn [fst snd]. by rewrite buffered_insert, entryAt_fresh.
Qed.
End EmissionFacts.

Section MainCallbackFacts.
Import PkgLogger.

(** With both callbacks configured and an Error-level entry drained, the
    record handed to the main callback is the one whose [Entries] were
    overwritten for the error callback. *)
Lemma end_main_callback_after_error (l : Logger) kind threadId route status
    duration now (st : St) :
  OnError l = true -> OnLogEvent l = true ->
  errorsOf st (buffered st threadId) <> [] ->
  Scenario.mainEntries
    (drop (length (calls st))
       (calls (exec (end_ l kind threadId route status duration now) st).2))
  = [errorsOf st (buffered st threadId)].
Proof.
  intros He Hm Hn. rewrite end_exec. cbv zeta. rewrite He, Hm.
  assert (Hl : Nat.eqb (length (buffered st threadId)) 0 = false).
  { apply Nat.eqb_neq. intros H0.
    pose proof (errorsOf_sub st (buffered st threadId)) as Hle.
    destruct (errorsOf st (buffered st threadId)); [done |].
    simpl in Hle. lia. }
  rewrite Hl, andb_false_r.
  destruct (errorsOf st (buffered st threadId)) as [| p rest] eqn:Ef;
    [done |].
  cbn [isNil negb andb snd calls]. by rewrite <- app_assoc, drop_app_length.
Qed.

(** Without the error callback the main callback keeps every entry. *)
Lemma end_main_callback_alone (l : Logger) threadId route status
    duration now (st : St) :
  OnError l = false -> OnLogEvent l = true ->
  Scenario.mainEntries
    (drop (length (calls st))
       (calls (exec (End l threadId route status duration now) st).2))
  = [buffered st threadId].
Proof.
  intros He Hm. unfold End. rewrite end_exec. cbv zeta. rewrite He, Hm.
  cbn [logKind_eqb kindRequest kindSession kind_name String.eqb Ascii.eqb
       Bool.eqb andb snd calls].
  by rewrite drop_app_length.
Qed.
End MainCallbackFacts.

(** C1. Error callback isolation, on the entries Info a, Error b, Debug c,
    Error d recorded under one id and finished with both callbacks
    configured: the error callback receives the two Error-level entries in
    their order; the main callback, invoked next, receives the
    same two entries and not the four that were drained, because [end]
    overwrites [log.Entries] before passing [log] on. *)
Theorem main_callback_receives_error_view :
  let st := (exec (Scenario.record_all Scenario.bothCallbacks "t"
                     Scenario.fourCalls) PkgLogger.emptyState).2 in
  let cs := calls (exec (PkgLogger.End Scenario.bothCallbacks "t" "/r" 200 5 99)
                     st).2 in
  buffered st "t" = [0; 1; 2; 3] /\
  map (fun p => PkgLogger.Level (entryAt st p)) [0; 1; 2; 3] =
    ["Info"; "Error"; "Debug"; "Error"] /\
  Scenario.errorEntries cs = [[1; 3]] /\
  Scenario.mainEntries cs = [[1; 3]] /\
  Scenario.mainEntries cs <> [buffered st "t"].
Proof. vm_compute. repeat split; done. Qed.

(** C5. A finish of kind Request with the main callback configured: on an
    id holding Info a, Error b, with the error callback configured as well,
    the main callback is invoked with the supplied route, status and
    duration, but its record carries the Error entry alone and not the
    drained sequence.  Package [log], which has no error callback, passes
    the drained sequence. *)
Theorem request_record_entries_replaced :
  let st := (exec (Scenario.record_all Scenario.bothCallbacks "r"
                     [Scenario.info "a"; Scenario.error "b"])
               PkgLogger.emptyState).2 in
  let cs := calls (exec (PkgLogger.End Scenario.bothCallbacks "r" "/r" 200 5 99)
                     st).2 in
  let st' := (exec (Scenario.record_all_log Scenario.plain_log "r"
                      [Scenario.info "a"; Scenario.error "b"])
                PkgLog.emptyState).2 in
  let cs' := calls (exec (PkgLog.End Scenario.plain_log "r" "/r" 200 5 99)
                      st').2 in
  buffered st "r" = [0; 1] /\
  cs = [(CbOnError, PkgLogger.mkLog 99 kindRequest "r" "/r" 200 5 [1]);
        (CbOnLogEvent, PkgLogger.mkLog 99 kindRequest "r" "/r" 200 5 [1])] /\
  cs' = [(CbOnLogEvent, PkgLog.mkLog 99 kindRequest "r" "/r" 200 5 [0; 1])].
Proof. vm_compute. repeat split; done. Qed.

(** Package [log]: a Request finish with the main callback configured
    always emits the supplied fields with the drained sequence, empty or
    not. *)
Lemma log_request_always_emitted (l : PkgLog.Logger) threadId route status
    duration now (st : PkgLog.St) :
  PkgLog.OnLogEvent l = true ->
  calls (exec (PkgLog.End l threadId route status duration now) st).2 =
  calls st ++
    [(CbOnLogEvent,
      PkgLog.mkLog now kindRequest threadId route status duration
        (buffered st threadId))].
Proof.
  intros Hm. unfold PkgLog.End. rewrite log_end_exec. cbv zeta.
  by rewrite Hm.
Qed.

(** C2. Package [log] with debug entries disabled: an Info call and an
    Error call store nothing either, since its [logEntry] tests
    [DisableDebug] without the level; a following finish emits a record
    without entries.  (Package [logger] tests the level, see
    [logger_suppresses_debug_only].) *)
Theorem log_DisableDebug_drops_every_level :
  let l := Scenario.debugOff_log in
  let i := exec (PkgLog.Info l "r" "m" Scenario.frame0 "id") PkgLog.emptyState in
  let e := exec (PkgLog.Error l "r" "m" Scenario.frame0 "id") i.2 in
  PkgLog.DisableDebug l = true /\
  logs i.2 = ∅ /\ logs e.2 = ∅ /\
  entryAt i.2 i.1 = PkgLog.zeroEntry /\ entryAt e.2 e.1 = PkgLog.zeroEntry /\
  Scenario.mainEntries_log
    (calls (exec (PkgLog.End l "r" "/r" 200 5 99) e.2).2) = [[]].
Proof. vm_compute. repeat split; done. Qed.

Lemma log_DisableDebug_any_level (l : PkgLog.Logger) level threadId msg fr eid
    (st : PkgLog.St) :
  PkgLog.DisableDebug l = true ->
  logs (exec (PkgLog.logEntry l level threadId msg fr eid) st).2 = logs st.
Proof. intros Hd. by rewrite log_logEntry_disabled. Qed.

(** ** Callers that overlap *)

Section CallerFacts.
Import Scenario.

(** Callers that run one after the other lose nothing: M callers of K
    calls each leave M * K new entries. *)
Lemma callers_in_turn_exec l threadId css (st : PkgLogger.St) :
  forallb (forallb (fun c => negb (suppressed l c))) css = true ->
  buffered (exec (callers_in_turn l threadId css) st).2 threadId =
    buffered st threadId ++
    seq (length (heap st)) (length (concat css)) /\
  length (heap (exec (callers_in_turn l threadId css) st).2) =
    length (heap st) + length (concat css).
Proof.
  revert st. induction css as [| cs rest IH]; intros st Hs; simpl in Hs.
  - simpl. rewrite app_nil_r. split; [done | lia].
  - apply andb_prop in Hs as [Hc Hrest].
    cbn [callers_in_turn]. unfold caller.
    rewrite !exec_bind. cbn [exec fst snd].
    destruct (record_all_exec l threadId cs st Hc) as (_ & Hh & Hb & _ & _).
    destruct (IH (exec (record_all l threadId cs) st).2 Hrest) as [IHb IHh].
    rewrite IHb, IHh, Hb, Hh. cbn [concat].
    rewrite !length_app, length_map, seq_app, <- app_assoc.
    split; [done | lia].
Qed.

Lemma concat_length_uniform {A} (css : list (list A)) k :
  Forall (fun cs => length cs = k) css ->
  length (concat css) = length css * k.
Proof.
  induction 1 as [| cs rest Hk _ IH]; [done |].
  cbn [concat length]. rewrite length_app, Hk, IH. lia.
Qed.
End CallerFacts.

(** C6. Two goroutines record one entry each under the same id.  When both
    load the sequence of the id before either stores, the second store
    overwrites the first: both calls have returned, two entries were
    built, and the finish drains one entry instead of two.  The same
    happens in package [log].  Callers that do not overlap keep both. *)
Theorem concurrent_append_loses_entry :
  let r := run_schedule Scenario.racy Scenario.twoCallers
             PkgLogger.emptyState in
  let cs := calls (exec (PkgLogger.End Scenario.bothCallbacks "x" "/r" 200 5
                           99) r.2).2 in
  let r' := run_schedule Scenario.racy_log Scenario.twoCallers_log
              PkgLog.emptyState in
  let cs' := calls (exec (PkgLog.End Scenario.plain_log "x" "/r" 200 5 99)
                      r'.2).2 in
  let s := run_schedule Scenario.inTurn Scenario.twoCallers
             PkgLogger.emptyState in
  (forallb finished r.1 = true /\ length (heap r.2) = 2 /\
   buffered r.2 "x" = [1] /\ Scenario.mainEntries cs = [[1]]) /\
  (forallb finished r'.1 = true /\ length (heap r'.2) = 2 /\
   buffered r'.2 "x" = [1] /\ Scenario.mainEntries_log cs' = [[1]]) /\
  (forallb finished s.1 = true /\ buffered s.2 "x" = [0; 1]).
Proof. vm_compute. repeat split; done. Qed.

(** * Further facts *)

(** ** Call-site names *)

Section PathFacts.
Implicit Types (s f : string) (c : Ascii.ascii).

Lemma string_length_app s1 s2 :
  String.length (s1 ++ s2)%string = String.length s1 + String.length s2.
Proof. induction s1 as [| a s1 IH]; simpl; [done | by rewrite IH]. Qed.

Lemma substring_whole s : String.substring 0 (String.length s) s = s.
Proof. induction s as [| a s IH]; simpl; [done | by rewrite IH]. Qed.

Lemma substring_skip (pre : string) a suf n :
  String.substring (String.length pre + 1) n (pre ++ String a suf)%string =
  String.substring 0 n suf.
Proof.
  induction pre as [| b pre IH]; simpl; [| exact IH].
  by destruct suf.
Qed.

(** [LastIndex] finds the last occurrence: the byte at the index is [c]
    and [c] does not occur after it. *)
Lemma LastIndex_Some s c i :
  LastIndex s c = Some i ->
  exists pre suf, s = (pre ++ String c suf)%string /\
    String.length pre = i /\ LastIndex suf c = None.
Proof.
  revert i. induction s as [| a s IH]; intros i; simpl; [done |].
  destruct (LastIndex s c) as [j |] eqn:E.
  - intros [= <-]. destruct (IH j eq_refl) as (pre & suf & -> & Hl & Hn).
    exists (String a pre), suf. simpl. by rewrite Hl.
  - destruct (Ascii.eqb a c) eqn:Ea; [| done]. intros [= <-].
    apply Ascii.eqb_eq in Ea as ->. by exists EmptyString, s.
Qed.

Lemma LastIndex_None s c :
  LastIndex s c = None <-> forall i, String.get i s <> Some c.
Proof.
  induction s as [| a s IH]; simpl.
  - split; [by intros _ [| i] | done].
  - destruct (LastIndex s c) as [j |] eqn:E.
    + split; [done |]. intros Hall. exfalso.
      assert (Hn : @None nat = None) by done.
      destruct IH as [_ IH]. discriminate IH.
      intros i. apply (Hall (S i)).
    + destruct (Ascii.eqb a c) eqn:Ea.
      * split; [done |]. intros Hall. apply Ascii.eqb_eq in Ea as ->.
        by specialize (Hall 0).
      * split; [| done]. intros _ [| i]; simpl.
        -- intros [= ->]. by rewrite Ascii.eqb_refl in Ea.
        -- by apply IH.
Qed.
End PathFacts.

Lemma append_one_assoc (pre : string) a suf :
  (pre ++ String a suf)%string = ((pre ++ String a "") ++ suf)%string.
Proof.
  induction pre as [| b pre IH]; [done |].
  change (String b (pre ++ String a suf)%string =
          String b ((pre ++ String a "") ++ suf)%string).
  by f_equal.
Qed.

Lemma stripPath_split (f : string) :
  (forall i, String.get i (stripPath f) <> Some slash) /\
  exists pre, f = (pre ++ stripPath f)%string /\
    (pre = "" \/ exists pre', pre = (pre' ++ String slash "")%string).
Proof.
  unfold stripPath. destruct (LastIndex f slash) as [i |] eqn:E.
  - destruct (LastIndex_Some _ _ _ E) as (pre & suf & -> & <- & Hn).
    rewrite substring_skip, string_length_app. cbn [String.length].
    replace (String.length pre + S (String.length suf) - (String.length pre + 1))
      with (String.length suf) by lia.
    rewrite substring_whole. split; [by apply LastIndex_None |].
    exists (pre ++ String slash "")%string.
    split; [apply append_one_assoc | right; by exists pre].
  - split; [by apply LastIndex_None |]. exists "". split; [done | by left].
Qed.

(** X1. [stripPath] keeps what follows the last slash: the name is some
    prefix followed by the result, the prefix is empty or ends with a
    slash, and the result holds no slash. *)
Theorem stripPath_after_last_slash (f : string) :
  (forall i, String.get i (stripPath f) <> Some slash) /\
  exists pre, f = (pre ++ stripPath f)%string /\
    (pre = "" \/ exists pre', pre = (pre' ++ "/")%string).
Proof. exact (stripPath_split f). Qed.

Example stripPath_run :
  stripPath "github.com/app/web.Handle" = "web.Handle" /\
  stripPath "main.main" = "main.main" /\ stripPath "a/b/" = "".
Proof. vm_compute. done. Qed.

(** X2. The function name of the call site never holds a slash, whatever
    the configuration and the frame: it is empty with [DisableRuntime],
    the placeholder for a frame that is not ok, and the stripped name
    otherwise.  Both packages. *)
Theorem call_site_function_has_no_slash
    (l : PkgLogger.Logger) (g : PkgLog.Logger) (fr : Frame) :
  (forall i, String.get i (PkgLogger.getCallSite l fr).1.1 <> Some slash) /\
  (forall i, String.get i (PkgLog.callSite g fr).1.1 <> Some slash).
Proof.
  unfold PkgLogger.getCallSite, PkgLog.callSite. split.
  - destruct (PkgLogger.DisableRuntime l); cbn [negb fst];
      [by intros [| i] |].
    destruct (fr_ok fr); cbn [negb fst].
    + apply (proj1 (stripPath_split _)).
    + apply (proj1 (LastIndex_None _ _)). vm_compute. done.
  - destruct (PkgLog.DisableRuntime g); cbn [negb fst];
      [by intros [| i] |].
    destruct (fr_ok fr); cbn [negb fst].
    + apply (proj1 (stripPath_split _)).
    + apply (proj1 (LastIndex_None _ _)). vm_compute. done.
Qed.

(** ** The invariant of the store *)

Section InvariantFacts.
Context {Entry Log : Type} `{!Inhabited Entry}.
Variable threadIdOf : Entry -> string.
Implicit Types (st : State Entry Log) (cs : list (Callback * Log)).

Lemma entryAt_grow st (m : gmap string (list ptr)) cs (more : list Entry) p :
  p < length (heap st) ->
  entryAt (mkState m (heap st ++ more) cs) p = entryAt st p.
Proof. intros Hp. unfold entryAt; simpl. by rewrite lookup_app_l. Qed.

Lemma entry_ok_grow st m cs more k p :
  entry_ok threadIdOf st k p ->
  entry_ok threadIdOf (mkState m (heap st ++ more) cs) k p.
Proof.
  intros [Hp Ht]. split; [simpl; rewrite length_app; lia |].
  by rewrite entryAt_grow.
Qed.

Lemma store_inv_empty : store_inv threadIdOf (mkState ∅ [] [] : State Entry Log).
Proof. unfold store_inv; simpl. apply map_Forall_empty. Qed.

(** Allocation alone keeps the invariant. *)
Lemma store_inv_alloc st cs (e : Entry) :
  store_inv threadIdOf st ->
  store_inv threadIdOf (mkState (logs st) (heap st ++ [e]) cs).
Proof.
  intros Hinv k ee Hk. destruct (Hinv k ee Hk) as (Hne & Hnd & Hok).
  repeat split; try done.
  eapply Forall_impl; [exact Hok |]. intros p. apply entry_ok_grow.
Qed.

(** Allocation of an entry of [k] followed by its append to the sequence of
    [k] keeps the invariant. *)
Lemma store_inv_record st cs (e : Entry) k :
  threadIdOf e = k ->
  store_inv threadIdOf st ->
  store_inv threadIdOf
    (mkState (<[k := buffered st k ++ [length (heap st)]]> (logs st))
       (heap st ++ [e]) cs).
Proof.
  intros He Hinv j ee. simpl. rewrite lookup_insert.
  case_decide as Hj.
  - subst j. intros [= <-].
    assert (Hold : NoDup (buffered st k) /\
                   Forall (entry_ok threadIdOf st k) (buffered st k)).
    { unfold buffered. destruct (logs st !! k) as [old |] eqn:E; simpl.
      - by destruct (Hinv k old E) as (_ & ? & ?).
      - split; [apply NoDup_nil_2 | apply Forall_nil_2]. }
    destruct Hold as [Hnd Hok].
    split; [by destruct (buffered st k) |]. split.
    + apply NoDup_app. split; [done |]. split; [| apply NoDup_singleton].
      intros p Hp Hp'. apply list_elem_of_singleton in Hp'. subst p.
      rewrite Forall_forall in Hok. destruct (Hok _ Hp) as [Hlt _]. lia.
    + apply Forall_app. split.
      * eapply Forall_impl; [exact Hok |]. intros p. apply entry_ok_grow.
      * apply Forall_singleton. split; [simpl; rewrite length_app; simpl; lia |].
        by rewrite entryAt_fresh.
  - intros Hk. destruct (Hinv j ee Hk) as (Hne & Hnd & Hok).
    repeat split; try done.
    eapply Forall_impl; [exact Hok |]. intros p. apply entry_ok_grow.
Qed.

Lemma store_inv_delete st k :
  store_inv threadIdOf st ->
  forall cs, store_inv threadIdOf (mkState (delete k (logs st)) (heap st) cs).
Proof.
  intros Hinv cs j ee. simpl. intros Hj.
  apply lookup_delete_Some in Hj as [_ Hj]. exact (Hinv j ee Hj).
Qed.

(** Overwriting a cell keeps the invariant when the thread identifier of
    the cell stays. *)
Lemma store_inv_assign st p (e : Entry) :
  threadIdOf e = threadIdOf (entryAt st p) ->
  store_inv threadIdOf st ->
  store_inv threadIdOf (mkState (logs st) (<[p := e]> (heap st)) (calls st)).
Proof.
  intros He Hinv k ee Hk. destruct (Hinv k ee Hk) as (Hne & Hnd & Hok).
  repeat split; try done.
  eapply Forall_impl; [exact Hok |]. intros q [Hq Ht].
  split; [simpl; by rewrite length_insert |].
  unfold entryAt in *. simpl. destruct (decide (p = q)) as [-> | Hpq].
  - rewrite list_lookup_insert_eq by done. simpl. by rewrite He.
  - by rewrite list_lookup_insert_ne.
Qed.
End InvariantFacts.

Lemma SeenError_state (s : PkgLogger.Session) (st : PkgLogger.St) :
  (exec (PkgLogger.SeenError s) st).2 = st.
Proof.
  unfold PkgLogger.SeenError. simpl.
  destruct (logs st !! PkgLogger.id s); [| done]. by rewrite anyError_exec.
Qed.

Lemma logEntry_inv l level threadId msg fr (st : PkgLogger.St) :
  store_inv PkgLogger.ThreadId st ->
  store_inv PkgLogger.ThreadId
    (exec (PkgLogger.logEntry l level threadId msg fr) st).2.
Proof.
  intros Hinv.
  destruct (logLevel_eqb level levelDebug && PkgLogger.DisableDebug l) eqn:E.
  - rewrite logEntry_suppressed by done. by apply store_inv_alloc.
  - rewrite logEntry_stored by done.
    apply store_inv_record; [apply newEntry_ThreadId | done].
Qed.

Lemma end_inv l kind threadId route status duration now (st : PkgLogger.St) :
  store_inv PkgLogger.ThreadId st ->
  store_inv PkgLogger.ThreadId
    (exec (PkgLogger.end_ l kind threadId route status duration now) st).2.
Proof.
  intros Hinv. rewrite end_exec. cbv zeta. cbn [snd].
  repeat match goal with |- context [if ?b then _ else _] => destruct b end;
    by apply store_inv_delete.
Qed.

(** X3. Package [logger] keeps the invariant of the store: every stored
    sequence is non-empty, without repeated entries, and holds only
    allocated entries whose [ThreadId] is the key they are stored under.
    Each operation preserves it: a record call at any level, [Data] on any
    pointer, [NewId] with or without a generator error, [SeenError] and
    [end] of any kind. *)
Theorem logger_store_invariant
    (l : PkgLogger.Logger) (level : logLevel) (threadId msg : string)
    (fr : Frame) (e : ptr) (k : string) (v : GoValue) (newId : string)
    (err : option string) (s : PkgLogger.Session) (kind : logKind)
    (route : string) (status duration now : Z) (st : PkgLogger.St) :
  store_inv PkgLogger.ThreadId st ->
  store_inv PkgLogger.ThreadId
    (exec (PkgLogger.logEntry l level threadId msg fr) st).2 /\
  store_inv PkgLogger.ThreadId (exec (PkgLogger.Data e k v) st).2 /\
  store_inv PkgLogger.ThreadId (exec (PkgLogger.NewId newId err) st).2 /\
  store_inv PkgLogger.ThreadId (exec (PkgLogger.SeenError s) st).2 /\
  store_inv PkgLogger.ThreadId
    (exec (PkgLogger.end_ l kind threadId route status duration now) st).2.
Proof.
  intros Hinv. split; [| split; [| split; [| split]]].
  - by apply logEntry_inv.
  - rewrite Data_exec. cbn [snd]. by apply store_inv_assign.
  - unfold PkgLogger.NewId. destruct err as [m |]; [| done].
    rewrite exec_bind, logUUIDError_exec. cbn [exec snd fst].
    by apply store_inv_record.
  - by rewrite SeenError_state.
  - by apply end_inv.
Qed.

Lemma logger_store_invariant_witness :
  let st := Scenario.twoIds in
  store_inv PkgLogger.ThreadId
    (exec (PkgLogger.logEntry Scenario.bothCallbacks levelError "a" "m"
             Scenario.frame0) st).2 /\
  store_inv PkgLogger.ThreadId (exec (PkgLogger.Data 0 "k" (VInt 1)) st).2 /\
  store_inv PkgLogger.ThreadId
    (exec (PkgLogger.NewId "" (Some "no entropy")) st).2 /\
  store_inv PkgLogger.ThreadId
    (exec (PkgLogger.SeenError Scenario.sess1) st).2 /\
  store_inv PkgLogger.ThreadId
    (exec (PkgLogger.end_ Scenario.bothCallbacks kindSession "a" "job" 0 0 7)
       st).2.
Proof.
  apply (logger_store_invariant Scenario.bothCallbacks levelError "a" "m"
           Scenario.frame0 0 "k" (VInt 1) "" (Some "no entropy") Scenario.sess1
           kindSession "job" 0 0 7 Scenario.twoIds).
  apply (@bool_decide_unpack _ (store_inv_dec _ _)). vm_compute. exact I.
Defined.

Lemma log_newEntry_ThreadId (l : PkgLog.Logger) level threadId msg fr eid :
  PkgLog.ThreadId (PkgLog.newEntry l level threadId msg fr eid) = threadId.
Proof. unfold PkgLog.newEntry. by destruct (PkgLog.callSite l fr) as [[? ?] ?]. Qed.

Lemma log_Data_exec (e : ptr) k v (st : PkgLog.St) :
  exec (PkgLog.Data e k v) st =
  (e, mkState (logs st)
        (<[e := PkgLog.mkEntry (PkgLog.logger (entryAt st e))
                  (PkgLog.EntryId (entryAt st e))
                  (PkgLog.ThreadId (entryAt st e))
                  (PkgLog.Level (entryAt st e))
                  (PkgLog.Function (entryAt st e))
                  (PkgLog.File (entryAt st e))
                  (PkgLog.Message (entryAt st e))
                  (PkgLog.Line (entryAt st e))
                  (PkgLog.KeyVals (entryAt st e) ++ [mkKv k v])]> (heap st))
        (calls st)).
Proof. done. Qed.

Lemma log_logEntry_inv l level threadId msg fr eid (st : PkgLog.St) :
  store_inv PkgLog.ThreadId st ->
  store_inv PkgLog.ThreadId
    (exec (PkgLog.logEntry l level threadId msg fr eid) st).2.
Proof.
  intros Hinv. destruct (PkgLog.DisableDebug l) eqn:E.
  - rewrite log_logEntry_disabled by done. by apply store_inv_alloc.
  - rewrite log_logEntry_stored by done.
    apply store_inv_record; [apply log_newEntry_ThreadId | done].
Qed.

Lemma log_end_inv l kind threadId route status duration now (st : PkgLog.St) :
  store_inv PkgLog.ThreadId st ->
  store_inv PkgLog.ThreadId
    (exec (PkgLog.end_ l kind threadId route status duration now) st).2.
Proof.
  intros Hinv. rewrite log_end_exec. cbv zeta. cbn [snd].
  repeat match goal with |- context [if ?b then _ else _] => destruct b end;
    by apply store_inv_delete.
Qed.

(** X4. Package [log] keeps the same invariant of the store under a record
    call at any level, [Data] on any pointer and [end] of any kind. *)
Theorem log_store_invariant
    (l : PkgLog.Logger) (level : logLevel) (threadId msg : string)
    (fr : Frame) (eid : string) (e : ptr) (k : string) (v : GoValue)
    (kind : logKind) (route : string) (status duration now : Z)
    (st : PkgLog.St) :
  store_inv PkgLog.ThreadId st ->
  store_inv PkgLog.ThreadId
    (exec (PkgLog.logEntry l level threadId msg fr eid) st).2 /\
  store_inv PkgLog.ThreadId (exec (PkgLog.Data e k v) st).2 /\
  store_inv PkgLog.ThreadId
    (exec (PkgLog.end_ l kind threadId route status duration now) st).2.
Proof.
  intros Hinv. split; [| split].
  - by apply log_logEntry_inv.
  - rewrite log_Data_exec. cbn [snd]. by apply store_inv_assign.
  - by apply log_end_inv.
Qed.

Lemma log_store_invariant_witness :
  let st := Scenario.twoIds_log in
  store_inv PkgLog.ThreadId
    (exec (PkgLog.logEntry Scenario.plain_log levelError "a" "m"
             Scenario.frame0 "id") st).2 /\
  store_inv PkgLog.ThreadId (exec (PkgLog.Data 1 "k" (VBool true)) st).2 /\
  store_inv PkgLog.ThreadId
    (exec (PkgLog.end_ Scenario.plain_log kindRequest "a" "/r" 200 5 7) st).2.
Proof.
  apply (log_store_invariant Scenario.plain_log levelError "a" "m"
           Scenario.frame0 "id" 1 "k" (VBool true) kindRequest "/r" 200 5 7
           Scenario.twoIds_log).
  apply (@bool_decide_unpack _ (store_inv_dec _ _)). vm_compute. exact I.
Defined.

(** ** What a finish hands to the callbacks *)

Section RecordFacts.
Import PkgLogger.
Implicit Types (st : St) (l : Logger).




(** The callback invocations a finish adds to the history. *)
Lemma end_new_calls l kind threadId route status duration now st :
  calls (exec (end_ l kind threadId route status duration now) st).2 =
  calls st ++
  drop (length (calls st))
    (calls (exec (end_ l kind threadId route status duration now) st).2).
Proof.
  rewrite end_exec. cbv zeta. cbn [snd].
  repeat match goal with |- context [if ?b then _ else _] => destruct b end;
    cbn [calls]; rewrite <- ?app_assoc, ?drop_app_length, ?drop_all;
    by rewrite ?app_nil_r.
Qed.
End RecordFacts.

Lemma store_inv_buffered {Entry Log} `{!Inhabited Entry}
    (threadIdOf : Entry -> string) (st : State Entry Log) k :
  store_inv threadIdOf st ->
  NoDup (buffered st k) /\ Forall (entry_ok threadIdOf st k) (buffered st k).
Proof.
  intros Hinv. unfold buffered.
  destruct (logs st !! k) as [old |] eqn:E; simpl.
  - by destruct (Hinv k old E) as (_ & ? & ?).
  - split; [apply NoDup_nil_2 | apply Forall_nil_2].
Qed.



(** ** Key/value pairs *)

Section AssignFacts.
Context {Entry Log : Type} `{!Inhabited Entry}.
Implicit Types (st : State Entry Log).


End AssignFacts.





(** X7. Pairs attached to the entry a record call returned are seen by
    the finish: the entry is shared with the store, so after a record call
    that is not suppressed and a [Data] on its result, the drained
    sequence ends with that entry and the entry read through it carries
    the pair, with the thread identifier, level and message of the call.
    Both packages. *)
Theorem Data_reaches_the_record
    (l : PkgLogger.Logger) (g : PkgLog.Logger) (level : logLevel)
    (threadId msg : string) (fr : Frame) (eid k : string) (v : GoValue)
    (st : PkgLogger.St) (sg : PkgLog.St) :
  logLevel_eqb level levelDebug && PkgLogger.DisableDebug l = false ->
  PkgLog.DisableDebug g = false ->
  let r := exec (let* e := PkgLogger.logEntry l level threadId msg fr in
                 let* _ := PkgLogger.Data e k v in
                 PkgLogger.takeAndClear threadId) st in
  let r' := exec (let* e := PkgLog.logEntry g level threadId msg fr eid in
                  let* _ := PkgLog.Data e k v in
                  PkgLog.takeAndClear threadId) sg in
  (r.1 = buffered st threadId ++ [length (heap st)] /\
   exists function file line,
     entryAt r.2 (length (heap st)) =
     PkgLogger.mkEntry threadId (level_name level) function file msg line
       [mkKv k v]) /\
  (r'.1 = buffered sg threadId ++ [length (heap sg)] /\
   exists function file line,
     entryAt r'.2 (length (heap sg)) =
     PkgLog.mkEntry (Some g) eid threadId (level_name level) function file msg
       line [mkKv k v]).
Proof.
  intros Hs Hd. cbv zeta.
  rewrite !exec_bind, logEntry_stored, log_logEntry_stored by done.
  cbn [fst snd]. rewrite Data_exec, log_Data_exec. cbn [fst snd].
  rewrite takeAndClear_exec, log_takeAndClear_exec. cbn [fst snd logs heap].
  rewrite !buffered_insert, !entryAt_fresh.
  split; (split; [done |]).
  - unfold PkgLogger.newEntry.
    destruct (PkgLogger.getCallSite l fr) as [[function file] line].
    exists function, file, line. unfold entryAt. cbn [heap].
    rewrite list_lookup_insert_eq by (rewrite ?length_app; simpl; lia).
    done.
  - unfold PkgLog.newEntry.
    destruct (PkgLog.callSite g fr) as [[function file] line].
    exists function, file, line. unfold entryAt. cbn [heap].
    rewrite list_lookup_insert_eq by (rewrite ?length_app; simpl; lia).
    done.
Qed.

Lemma Data_reaches_the_record_witness :
  let r := exec (let* e := PkgLogger.logEntry Scenario.bothCallbacks levelInfo
                             "a" "m" Scenario.frame0 in
                 let* _ := PkgLogger.Data e "user" (VString "u1") in
                 PkgLogger.takeAndClear "a") Scenario.twoIds in
  let r' := exec (let* e := PkgLog.logEntry Scenario.plain_log levelInfo
                              "a" "m" Scenario.frame0 "id" in
                  let* _ := PkgLog.Data e "user" (VString "u1") in
                  PkgLog.takeAndClear "a") Scenario.twoIds_log in
  (r.1 = buffered Scenario.twoIds "a" ++ [length (heap Scenario.twoIds)] /\
   exists function file line,
     entryAt r.2 (length (heap Scenario.twoIds)) =
     PkgLogger.mkEntry "a" (level_name levelInfo) function file "m" line
       [mkKv "user" (VString "u1")]) /\
  (r'.1 = buffered Scenario.twoIds_log "a" ++
            [length (heap Scenario.twoIds_log)] /\
   exists function file line,
     entryAt r'.2 (length (heap Scenario.twoIds_log)) =
     PkgLog.mkEntry (Some Scenario.plain_log) "id" "a" (level_name levelInfo)
       function file "m" line [mkKv "user" (VString "u1")]).
Proof.
  apply (Data_reaches_the_record Scenario.bothCallbacks Scenario.plain_log
           levelInfo "a" "m" Scenario.frame0 "id" "user" (VString "u1")
           Scenario.twoIds Scenario.twoIds_log); reflexivity.
Defined.

(** ** Suppressed calls and the frame of a record call *)

Section RecordCallFacts.
Import Scenario.


End RecordCallFacts.





(** ** [SeenError] along the life of a session *)

Lemma buffered_insert_ne {Entry Log} (st : State Entry Log) k j v
    (h : list Entry) (cs : list (Callback * Log)) :
  k <> j -> buffered (mkState (<[k := v]> (logs st)) h cs) j = buffered st j.
Proof. intros Hne. unfold buffered; simpl. by rewrite lookup_insert_ne. Qed.


Section SeenErrorFacts.
Import PkgLogger.
Implicit Types (st : St) (s : Session).

Lemma SeenError_exec s st :
  exec (SeenError s) st =
  (negb (isNil (errorsOf st (buffered st (id s)))), st).
Proof.
  unfold SeenError, buffered. simpl.
  destruct (logs st !! id s); [| done]. by rewrite anyError_exec.
Qed.

Lemma errorsOf_app st ee1 ee2 :
  errorsOf st (ee1 ++ ee2) = errorsOf st ee1 ++ errorsOf st ee2.
Proof. apply List.filter_app. Qed.

Lemma errorsOf_grow st (m : gmap string (list ptr))
    (cs : list (Callback * Log)) more ee :
  Forall (fun p => p < length (heap st)) ee ->
  errorsOf (mkState m (heap st ++ more) cs) ee = errorsOf st ee.
Proof.
  induction 1 as [| p ee Hp _ IH]; [done |].
  unfold errorsOf in *. simpl. by rewrite entryAt_grow, IH.
Qed.

Lemma buffered_valid st k :
  store_inv ThreadId st ->
  Forall (fun p => p < length (heap st)) (buffered st k).
Proof.
  intros Hinv. destruct (store_inv_buffered _ st k Hinv) as [_ Hok].
  eapply Forall_impl; [exact Hok |]. by intros p [Hp _].
Qed.

End SeenErrorFacts.

(** X10. After [Session.Error], [SeenError] reports true whatever was
    buffered before and whatever the configuration; after [Session.End] it
    reports false. *)
Theorem SeenError_after_Error_and_after_End
    (s : PkgLogger.Session) (msg : string) (fr : Frame) (now : Z)
    (st : PkgLogger.St) :
  (exec (let* _ := PkgLogger.Session_Error s msg fr in PkgLogger.SeenError s)
     st).1 = true /\
  (exec (let* _ := PkgLogger.Session_End s now in PkgLogger.SeenError s)
     st).1 = false.
Proof.
  rewrite !exec_bind, !SeenError_exec. cbn [fst]. split.
  - unfold PkgLogger.Session_Error.
    rewrite logEntry_stored by done. cbn [snd].
    rewrite buffered_insert, errorsOf_app.
    unfold errorsOf at 2. cbn [List.filter].
    rewrite entryAt_fresh, newEntry_Level. cbn.
    by destruct (errorsOf _ (buffered st (PkgLogger.id s))).
  - unfold PkgLogger.Session_End, buffered. by rewrite end_logs, lookup_delete_eq.
Qed.



(** X12. The error callback and [SeenError] agree: [Session.End] invokes
    the error callback exactly when it is configured and [SeenError]
    reports true just before, once, with the Error-level entries of the
    session in their order; otherwise it does not invoke it. *)
Theorem error_callback_iff_SeenError
    (s : PkgLogger.Session) (now : Z) (st : PkgLogger.St) :
  Scenario.errorEntries
    (drop (length (calls st))
       (calls (exec (PkgLogger.Session_End s now) st).2)) =
  if PkgLogger.OnError (PkgLogger.logger s) &&
     (exec (PkgLogger.SeenError s) st).1
  then [errorsOf st (buffered st (PkgLogger.id s))]
  else [].
Proof.
  rewrite SeenError_exec. cbn [fst]. unfold PkgLogger.Session_End.
  rewrite end_exec. cbv zeta.
  destruct (errorsOf st (buffered st (PkgLogger.id s))) as [| p rest] eqn:Ef.
  - cbn [PkgLogger.isNil negb]. rewrite !andb_false_r.
    destruct (_ && _); cbn [snd calls]; rewrite ?drop_all; [done |].
    rewrite drop_app_length. by destruct (PkgLogger.OnLogEvent _).
  - assert (Hl : Nat.eqb (length (buffered st (PkgLogger.id s))) 0 = false).
    { apply Nat.eqb_neq. intros H0.
      pose proof (errorsOf_sub st (buffered st (PkgLogger.id s))) as Hle.
      rewrite Ef in Hle. simpl in Hle. lia. }
    rewrite Hl, andb_false_r. cbn [PkgLogger.isNil negb]. rewrite !andb_true_r.
    destruct (PkgLogger.OnError (PkgLogger.logger s)); cbn [snd calls].
    + rewrite <- app_assoc, drop_app_length.
      by destruct (PkgLogger.OnLogEvent _).
    + rewrite drop_app_length. by destruct (PkgLogger.OnLogEvent _).
Qed.

(** ** Finish: order of the callbacks, unknown ids, reuse of an id *)

(** X13. Which callbacks a finish invokes, and in which order: the error
    callback first, when it is configured and an Error-level entry was
    drained; then the main callback, when it is configured and the finish
    is not a Session finish of an empty sequence; nothing else.  Every
    record handed over carries the time of the finish and the kind,
    thread identifier, route, status and duration supplied.  Package
    [log] invokes the main callback under the same condition. *)
Theorem finish_callbacks_order_and_header
    (l : PkgLogger.Logger) (g : PkgLog.Logger) (kind : logKind)
    (threadId route : string) (status duration now : Z)
    (st : PkgLogger.St) (sg : PkgLog.St) :
  let news := drop (length (calls st))
    (calls (exec (PkgLogger.end_ l kind threadId route status duration now)
              st).2) in
  let news' := drop (length (calls sg))
    (calls (exec (PkgLog.end_ g kind threadId route status duration now)
              sg).2) in
  (map fst news =
     (if PkgLogger.OnError l &&
         negb (PkgLogger.isNil (errorsOf st (buffered st threadId)))
      then [CbOnError] else []) ++
     (if PkgLogger.OnLogEvent l &&
         negb (logKind_eqb kind kindSession &&
               Nat.eqb (length (buffered st threadId)) 0)
      then [CbOnLogEvent] else []) /\
   Forall (fun c =>
     PkgLogger.Date c.2 = now /\ PkgLogger.Kind c.2 = kind /\
     PkgLogger.Log_ThreadId c.2 = threadId /\ PkgLogger.Route c.2 = route /\
     PkgLogger.Status c.2 = status /\ PkgLogger.Duration c.2 = duration)
     news) /\
  (map fst news' =
     (if PkgLog.OnLogEvent g &&
         negb (logKind_eqb kind kindSession &&
               Nat.eqb (length (buffered sg threadId)) 0)
      then [CbOnLogEvent] else []) /\
   Forall (fun c =>
     PkgLog.Date c.2 = now /\ PkgLog.Kind c.2 = kind /\
     PkgLog.Log_ThreadId c.2 = threadId /\ PkgLog.Route c.2 = route /\
     PkgLog.Status c.2 = status /\ PkgLog.Duration c.2 = duration /\
     PkgLog.Entries c.2 = buffered sg threadId)
     news').
Proof.
  cbv zeta. rewrite end_exec, log_end_exec. cbv zeta. cbn [snd]. split.
  - destruct (errorsOf st (buffered st threadId)) as [| p rest] eqn:Ef.
    + cbn [PkgLogger.isNil negb]. rewrite !andb_false_r. cbn [app].
      destruct (logKind_eqb kind kindSession &&
                Nat.eqb (length (buffered st threadId)) 0);
        cbn [calls negb]; rewrite ?andb_false_r, ?andb_true_r,
          ?drop_all, ?drop_app_length; [done |].
      destruct (PkgLogger.OnLogEvent l); [| done].
      split; [done |]. by apply Forall_singleton.
    + assert (Hl : Nat.eqb (length (buffered st threadId)) 0 = false).
      { apply Nat.eqb_neq. intros H0.
        pose proof (errorsOf_sub st (buffered st threadId)) as Hle.
        rewrite Ef in Hle. simpl in Hle. lia. }
      rewrite Hl, !andb_false_r. cbn [PkgLogger.isNil negb].
      rewrite !andb_true_r.
      destruct (PkgLogger.OnError l), (PkgLogger.OnLogEvent l);
        cbn [calls]; rewrite <- ?app_assoc, ?drop_app_length;
        (split; [done |]);
        repeat (apply Forall_cons; split; [done |]); apply Forall_nil_2.
  - destruct (logKind_eqb kind kindSession &&
              Nat.eqb (length (buffered sg threadId)) 0);
      cbn [calls negb]; rewrite ?andb_false_r, ?andb_true_r,
        ?drop_all, ?drop_app_length; [done |].
    destruct (PkgLog.OnLogEvent g); [| done].
    split; [done |]. by apply Forall_singleton.
Qed.

(** X14. A finish of a thread identifier that has no mapping is not an
    error: the store and the entries stay exactly as they were, the error
    callback is not invoked, a Session finish invokes nothing and any
    other finish hands the main callback, when configured, a record
    without entries.  Both packages. *)
Theorem finish_of_unknown_id
    (l : PkgLogger.Logger) (g : PkgLog.Logger) (kind : logKind)
    (threadId route : string) (status duration now : Z)
    (st : PkgLogger.St) (sg : PkgLog.St) :
  logs st !! threadId = None ->
  logs sg !! threadId = None ->
  exec (PkgLogger.end_ l kind threadId route status duration now) st =
    (tt, mkState (logs st) (heap st)
           (calls st ++
            (if logKind_eqb kind kindSession || negb (PkgLogger.OnLogEvent l)
             then []
             else [(CbOnLogEvent,
                    PkgLogger.mkLog now kind threadId route status duration
                      [])]))) /\
  exec (PkgLog.end_ g kind threadId route status duration now) sg =
    (tt, mkState (logs sg) (heap sg)
           (calls sg ++
            (if logKind_eqb kind kindSession || negb (PkgLog.OnLogEvent g)
             then []
             else [(CbOnLogEvent,
                    PkgLog.mkLog now kind threadId route status duration
                      [])]))).
Proof.
  intros Hn Hng. rewrite end_exec, log_end_exec. cbv zeta.
  unfold buffered. rewrite Hn, Hng, !delete_id by done.
  cbn [default errorsOf List.filter PkgLogger.isNil negb length Nat.eqb].
  rewrite !andb_true_r, andb_false_r.
  destruct (logKind_eqb kind kindSession); cbn [orb];
    rewrite ?app_nil_r; [done |].
  by destruct (PkgLogger.OnLogEvent l), (PkgLog.OnLogEvent g).
Qed.

Lemma finish_of_unknown_id_witness :
  exec (PkgLogger.end_ Scenario.bothCallbacks kindRequest "zz" "/r" 404 3 7)
    Scenario.twoIds =
    (tt, mkState (logs Scenario.twoIds) (heap Scenario.twoIds)
           (calls Scenario.twoIds ++
            (if logKind_eqb kindRequest kindSession ||
                negb (PkgLogger.OnLogEvent Scenario.bothCallbacks)
             then []
             else [(CbOnLogEvent,
                    PkgLogger.mkLog 7 kindRequest "zz" "/r" 404 3 [])]))) /\
  exec (PkgLog.end_ Scenario.plain_log kindRequest "zz" "/r" 404 3 7)
    Scenario.twoIds_log =
    (tt, mkState (logs Scenario.twoIds_log) (heap Scenario.twoIds_log)
           (calls Scenario.twoIds_log ++
            (if logKind_eqb kindRequest kindSession ||
                negb (PkgLog.OnLogEvent Scenario.plain_log)
             then []
             else [(CbOnLogEvent,
                    PkgLog.mkLog 7 kindRequest "zz" "/r" 404 3 [])]))).
Proof.
  apply (finish_of_unknown_id Scenario.bothCallbacks Scenario.plain_log
           kindRequest "zz" "/r" 404 3 7 Scenario.twoIds Scenario.twoIds_log);
    vm_compute; reflexivity.
Defined.

(** X15. A handle stays usable after its finish: a record call made after
    the finish, when not suppressed, starts a new sequence under the same
    thread identifier that holds exactly the new entry; no callback is
    invoked for it until the next finish.  Both packages. *)
Theorem record_after_finish_starts_new_sequence
    (l : PkgLogger.Logger) (g : PkgLog.Logger) (kind : logKind)
    (level : logLevel) (threadId route msg : string) (fr : Frame)
    (eid : string) (status duration now : Z)
    (st : PkgLogger.St) (sg : PkgLog.St) :
  logLevel_eqb level levelDebug && PkgLogger.DisableDebug l = false ->
  PkgLog.DisableDebug g = false ->
  let f := exec (PkgLogger.end_ l kind threadId route status duration now)
             st in
  let r := exec (PkgLogger.logEntry l level threadId msg fr) f.2 in
  let f' := exec (PkgLog.end_ g kind threadId route status duration now)
              sg in
  let r' := exec (PkgLog.logEntry g level threadId msg fr eid) f'.2 in
  (logs r.2 !! threadId = Some [r.1] /\ r.1 = length (heap st) /\
   entryAt r.2 r.1 = PkgLogger.newEntry l level threadId msg fr /\
   calls r.2 = calls f.2) /\
  (logs r'.2 !! threadId = Some [r'.1] /\ r'.1 = length (heap sg) /\
   entryAt r'.2 r'.1 = PkgLog.newEntry g level threadId msg fr eid /\
   calls r'.2 = calls f'.2).
Proof.
  intros Hs Hd. cbv zeta.
  rewrite logEntry_stored, log_logEntry_stored by done.
  cbn [fst snd logs calls]. rewrite !lookup_insert_eq, !entryAt_fresh.
  unfold buffered. rewrite end_logs, log_end_logs, end_heap, log_end_heap.
  by rewrite !lookup_delete_eq.
Qed.

Lemma record_after_finish_starts_new_sequence_witness :
  let f := exec (PkgLogger.end_ Scenario.bothCallbacks kindSession "b" "job"
                   0 0 7) Scenario.twoIds in
  let r := exec (PkgLogger.logEntry Scenario.bothCallbacks levelInfo "b" "m"
                   Scenario.frame0) f.2 in
  let f' := exec (PkgLog.end_ Scenario.plain_log kindSession "b" "job" 0 0 7)
              Scenario.twoIds_log in
  let r' := exec (PkgLog.logEntry Scenario.plain_log levelInfo "b" "m"
                    Scenario.frame0 "id") f'.2 in
  (logs r.2 !! "b" = Some [r.1] /\ r.1 = length (heap Scenario.twoIds) /\
   entryAt r.2 r.1 =
     PkgLogger.newEntry Scenario.bothCallbacks levelInfo "b" "m"
       Scenario.frame0 /\
   calls r.2 = calls f.2) /\
  (logs r'.2 !! "b" = Some [r'.1] /\ r'.1 = length (heap Scenario.twoIds_log) /\
   entryAt r'.2 r'.1 =
     PkgLog.newEntry Scenario.plain_log levelInfo "b" "m" Scenario.frame0
       "id" /\
   calls r'.2 = calls f'.2).
Proof.
  apply (record_after_finish_starts_new_sequence Scenario.bothCallbacks
           Scenario.plain_log kindSession levelInfo "b" "job" "m"
           Scenario.frame0 "id" 0 0 7 Scenario.twoIds Scenario.twoIds_log);
    reflexivity.
Defined.

(** ** From the record calls to the emitted record *)

(** X16. The whole life of a request, without the error callback: after N
    record calls under one thread identifier, none suppressed, [End]
    invokes the main callback exactly once, with the supplied route,
    status and duration and with the entries buffered before followed by
    the N entries of the calls in call order, each read back as it was
    built; afterwards the identifier has no mapping.  Package [log] does
    the same. *)
Theorem request_lifecycle
    (l : PkgLogger.Logger) (g : PkgLog.Logger) (threadId route : string)
    (cs : list RecordCall) (status duration now : Z)
    (st : PkgLogger.St) (sg : PkgLog.St) :
  PkgLogger.OnLogEvent l = true -> PkgLogger.OnError l = false ->
  forallb (fun c => negb (Scenario.suppressed l c)) cs = true ->
  PkgLog.OnLogEvent g = true -> PkgLog.DisableDebug g = false ->
  let r := exec (let* _ := Scenario.record_all l threadId cs in
                 PkgLogger.End l threadId route status duration now) st in
  let r' := exec (let* _ := Scenario.record_all_log g threadId cs in
                  PkgLog.End g threadId route status duration now) sg in
  (calls r.2 = calls st ++
     [(CbOnLogEvent,
       PkgLogger.mkLog now kindRequest threadId route status duration
         (buffered st threadId ++ seq (length (heap st)) (length cs)))] /\
   map (entryAt r.2) (seq (length (heap st)) (length cs)) =
     map (Scenario.built l threadId) cs /\
   logs r.2 !! threadId = None) /\
  (calls r'.2 = calls sg ++
     [(CbOnLogEvent,
       PkgLog.mkLog now kindRequest threadId route status duration
         (buffered sg threadId ++ seq (length (heap sg)) (length cs)))] /\
   map (entryAt r'.2) (seq (length (heap sg)) (length cs)) =
     map (Scenario.built_log g threadId) cs /\
   logs r'.2 !! threadId = None).
Proof.
  intros Hm He Hs Hmg Hd. cbv zeta. rewrite !exec_bind.
  destruct (record_all_exec l threadId cs st Hs) as (_ & Hh & Hb & Hc & _).
  destruct (record_all_log_exec g threadId cs sg Hd)
    as (_ & Hh' & Hb' & Hc' & _).
  split.
  - split; [| split].
    + unfold PkgLogger.End. rewrite end_exec. cbv zeta.
      rewrite He, Hm, Hb, Hc. done.
    + rewrite <- (length_map (Scenario.built l threadId) cs).
      eapply entries_of_fresh; [| reflexivity].
      unfold PkgLogger.End. by rewrite end_heap.
    + unfold PkgLogger.End. by rewrite end_logs, lookup_delete_eq.
  - split; [| split].
    + unfold PkgLog.End. rewrite log_end_exec. cbv zeta.
      rewrite Hmg, Hb', Hc'. done.
    + rewrite <- (length_map (Scenario.built_log g threadId) cs).
      eapply entries_of_fresh; [| reflexivity].
      unfold PkgLog.End. by rewrite log_end_heap.
    + unfold PkgLog.End. by rewrite log_end_logs, lookup_delete_eq.
Qed.

Lemma request_lifecycle_witness :
  let l := PkgLogger.mkLogger true false false false in
  let cs := Scenario.fourCalls in
  let r := exec (let* _ := Scenario.record_all l "t" cs in
                 PkgLogger.End l "t" "/r" 200 5 99) Scenario.twoIds in
  let r' := exec (let* _ := Scenario.record_all_log Scenario.plain_log "t" cs in
                  PkgLog.End Scenario.plain_log "t" "/r" 200 5 99)
              Scenario.twoIds_log in
  (calls r.2 = calls Scenario.twoIds ++
     [(CbOnLogEvent,
       PkgLogger.mkLog 99 kindRequest "t" "/r" 200 5
         (buffered Scenario.twoIds "t" ++
          seq (length (heap Scenario.twoIds)) (length cs)))] /\
   map (entryAt r.2) (seq (length (heap Scenario.twoIds)) (length cs)) =
     map (Scenario.built l "t") cs /\
   logs r.2 !! "t" = None) /\
  (calls r'.2 = calls Scenario.twoIds_log ++
     [(CbOnLogEvent,
       PkgLog.mkLog 99 kindRequest "t" "/r" 200 5
         (buffered Scenario.twoIds_log "t" ++
          seq (length (heap Scenario.twoIds_log)) (length cs)))] /\
   map (entryAt r'.2) (seq (length (heap Scenario.twoIds_log)) (length cs)) =
     map (Scenario.built_log Scenario.plain_log "t") cs /\
   logs r'.2 !! "t" = None).
Proof.
  apply (request_lifecycle (PkgLogger.mkLogger true false false false)
           Scenario.plain_log "t" "/r" Scenario.fourCalls 200 5 99
           Scenario.twoIds Scenario.twoIds_log); reflexivity.
Defined.

(** ** Goroutines under distinct thread identifiers *)

Section PhaseFacts.
Context {Entry Log : Type} `{!Inhabited Entry}.
Variable threadIdOf : Entry -> string.
Implicit Types (t : Prog Entry Log unit) (st : State Entry Log).

Lemma heap_lookup_entryAt st p (e : Entry) :
  heap st !! p = Some e -> entryAt st p = e.
Proof. intros H. unfold entryAt. by rewrite H. Qed.

(** One step of a goroutine keeps its own standing and changes only what
    [guarantee] allows. *)
Lemma thread_step direct tid (ent : Entry) b t st :
  threadIdOf ent = tid ->
  thread_inv threadIdOf direct tid ent b t st ->
  thread_inv threadIdOf direct tid ent b (step_thread t st).1
    (step_thread t st).2 /\
  guarantee tid st (step_thread t st).2.
Proof.
  intros Hent [[[_ Hnew] Hb] | [(p & Hph & Hp & Hb) | (-> & p & Hp & Hl)]].
  - destruct (Hnew st) as (t1 & -> & Hnext). cbn [fst snd]. split.
    + right; left. exists (length (heap st)). split; [| split].
      * destruct direct; [right; left; done | left; done].
      * simpl. by rewrite list_lookup_middle.
      * done.
    + repeat split; try done. intros q e Hq. simpl.
      by rewrite lookup_app_l by (by eapply lookup_lt_Some).
  - destruct Hph as [[_ Hd] | [[_ Hld] | [_ Hs]]].
    + destruct (Hd st) as (t1 & -> & Hnext).
      { by rewrite (heap_lookup_entryAt _ _ _ Hp). }
      cbn [fst snd]. split; [| done].
      right; left. exists p. split; [right; left; done | done].
    + destruct (Hld st) as (t1 & -> & Hnext). cbn [fst snd].
      split; [| done]. right; left. exists p. rewrite Hb in Hnext.
      split; [right; right; done | done].
    + rewrite Hs. cbn [fst snd]. split.
      * right; right. split; [done |]. exists p. split; [done |].
        simpl. by rewrite lookup_insert_eq.
      * repeat split; try done. intros k Hk. simpl.
        by rewrite lookup_insert_ne.
  - simpl. split; [| done]. right; right. split; [done |]. by exists p.
Qed.

(** The standing of a goroutine is not disturbed by what the other may
    change. *)
Lemma thread_stable direct tid (ent : Entry) b t st st1 :
  logs st1 !! tid = logs st !! tid ->
  (forall p e, heap st !! p = Some e -> heap st1 !! p = Some e) ->
  thread_inv threadIdOf direct tid ent b t st ->
  thread_inv threadIdOf direct tid ent b t st1.
Proof.
  intros Hl Hh [[Hnew Hb] | [(p & Hph & Hp & Hb) | (-> & p & Hp & Hs)]].
  - left. split; [done |]. unfold buffered in *. by rewrite Hl.
  - right; left. exists p. split; [done |]. split; [by apply Hh |].
    unfold buffered in *. by rewrite Hl.
  - right; right. split; [done |]. exists p. split; [by apply Hh |].
    by rewrite Hl.
Qed.

(** Two goroutines under distinct thread identifiers, under any
    schedule. *)
Lemma two_threads_inv sched :
  forall d tid0 tid1 (ent0 ent1 : Entry) b0 b1 t0 t1 st,
  tid0 <> tid1 ->
  threadIdOf ent0 = tid0 -> threadIdOf ent1 = tid1 ->
  thread_inv threadIdOf d tid0 ent0 b0 t0 st ->
  thread_inv threadIdOf d tid1 ent1 b1 t1 st ->
  exists u0 u1,
    (run_schedule sched [t0; t1] st).1 = [u0; u1] /\
    thread_inv threadIdOf d tid0 ent0 b0 u0 (run_schedule sched [t0; t1] st).2 /\
    thread_inv threadIdOf d tid1 ent1 b1 u1 (run_schedule sched [t0; t1] st).2 /\
    calls (run_schedule sched [t0; t1] st).2 = calls st /\
    (forall k, k <> tid0 -> k <> tid1 ->
       logs (run_schedule sched [t0; t1] st).2 !! k = logs st !! k).
Proof.
  induction sched as [| i rest IH];
    intros d tid0 tid1 ent0 ent1 b0 b1 t0 t1 st Hne He0 He1 H0 H1.
  - by exists t0, t1.
  - destruct i as [| [| i]]; cbn [run_schedule lookup list_lookup].
    + destruct (thread_step d tid0 ent0 b0 t0 st He0 H0)
        as [H0' (Gl & Gh & Gc)].
      destruct (step_thread t0 st) as [u st1]. cbn [fst snd] in *.
      cbn [insert list_insert].
      assert (H1' : thread_inv threadIdOf d tid1 ent1 b1 t1 st1).
      { eapply thread_stable; [| exact Gh | exact H1]. by apply Gl. }
      destruct (IH d tid0 tid1 ent0 ent1 b0 b1 u t1 st1 Hne He0 He1 H0' H1')
        as (u0 & u1 & E & I0 & I1 & Ic & Il).
      exists u0, u1. repeat split; try done; [congruence |].
      intros k Hk0 Hk1. rewrite Il by done. by apply Gl.
    + destruct (thread_step d tid1 ent1 b1 t1 st He1 H1)
        as [H1' (Gl & Gh & Gc)].
      destruct (step_thread t1 st) as [u st1]. cbn [fst snd] in *.
      cbn [insert list_insert].
      assert (H0' : thread_inv threadIdOf d tid0 ent0 b0 t0 st1).
      { eapply thread_stable; [| exact Gh | exact H0]. by apply Gl. }
      destruct (IH d tid0 tid1 ent0 ent1 b0 b1 t0 u st1 Hne He0 He1 H0' H1')
        as (u0 & u1 & E & I0 & I1 & Ic & Il).
      exists u0, u1. repeat split; try done; [congruence |].
      intros k Hk0 Hk1. rewrite Il by done. by apply Gl.
    + by apply IH.
Qed.

(** A goroutine that is done has stored its entry. *)
Lemma thread_inv_finished direct tid (ent : Entry) b t st :
  thread_inv threadIdOf direct tid ent b t st ->
  finished t = true ->
  exists p, entryAt st p = ent /\ logs st !! tid = Some (b ++ [p]).
Proof.
  intros [[[Hf _] _] | [(p & Hph & _) | (_ & p & Hp & Hl)]] Hfin.
  - congruence.
  - destruct Hph as [[Hf _] | [[Hf _] | [Hf _]]]; congruence.
  - exists p. split; [by apply heap_lookup_entryAt | done].
Qed.
End PhaseFacts.

Section CallerPhases.
Import Scenario.

Lemma caller_at_new l threadId c :
  suppressed l c = false ->
  at_new PkgLogger.ThreadId false threadId (built l threadId c)
    (caller l threadId [c]).
Proof.
  intros Hs. unfold suppressed in Hs.
  unfold caller, record_all, PkgLogger.logEntry. rewrite Hs.
  split; [done |]. intros st. eexists. split; [reflexivity |].
  split; [done |]. intros st1 Ht. unfold entryAt in Ht.
  eexists. split; [reflexivity |].
  rewrite Ht. split; [done |]. intros st2. eexists. split; [reflexivity |].
  unfold buffered. destruct (logs st2 !! threadId); by split.
Qed.

Lemma caller_log_at_new g threadId c :
  PkgLog.DisableDebug g = false ->
  at_new PkgLog.ThreadId true threadId (built_log g threadId c)
    (caller_log g threadId [c]).
Proof.
  intros Hd. unfold caller_log, record_all_log, PkgLog.logEntry. rewrite Hd.
  split; [done |]. intros st. eexists. split; [reflexivity |].
  split; [done |]. intros st2. eexists. split; [reflexivity |].
  unfold buffered. destruct (logs st2 !! threadId); by split.
Qed.
End CallerPhases.

(** X17. Goroutines that record under distinct thread identifiers do not
    disturb each other, whatever the schedule: when two goroutines, each
    making one record call that is not suppressed, have both returned, the
    sequence of each identifier is what it was before followed by the one
    entry built from its call, and no callback was invoked.  (Under one
    shared identifier an entry can be lost.)  Both packages. *)
Theorem distinct_ids_never_interfere
    (l : PkgLogger.Logger) (g : PkgLog.Logger) (tid0 tid1 : string)
    (c0 c1 : RecordCall) (sched sched' : list nat)
    (st : PkgLogger.St) (sg : PkgLog.St) :
  tid0 <> tid1 ->
  Scenario.suppressed l c0 = false -> Scenario.suppressed l c1 = false ->
  PkgLog.DisableDebug g = false ->
  let r := run_schedule sched
             [Scenario.caller l tid0 [c0]; Scenario.caller l tid1 [c1]] st in
  let r' := run_schedule sched'
              [Scenario.caller_log g tid0 [c0];
               Scenario.caller_log g tid1 [c1]] sg in
  forallb finished r.1 = true -> forallb finished r'.1 = true ->
  (exists p0 p1,
     logs r.2 !! tid0 = Some (buffered st tid0 ++ [p0]) /\
     entryAt r.2 p0 = Scenario.built l tid0 c0 /\
     logs r.2 !! tid1 = Some (buffered st tid1 ++ [p1]) /\
     entryAt r.2 p1 = Scenario.built l tid1 c1 /\
     calls r.2 = calls st) /\
  (exists p0 p1,
     logs r'.2 !! tid0 = Some (buffered sg tid0 ++ [p0]) /\
     entryAt r'.2 p0 = Scenario.built_log g tid0 c0 /\
     logs r'.2 !! tid1 = Some (buffered sg tid1 ++ [p1]) /\
     entryAt r'.2 p1 = Scenario.built_log g tid1 c1 /\
     calls r'.2 = calls sg).
Proof.
  intros Hne Hs0 Hs1 Hd. cbv zeta. intros Hf Hf'. split.
  - destruct (two_threads_inv PkgLogger.ThreadId sched false tid0 tid1
                (Scenario.built l tid0 c0) (Scenario.built l tid1 c1)
                (buffered st tid0) (buffered st tid1)
                (Scenario.caller l tid0 [c0]) (Scenario.caller l tid1 [c1]) st)
      as (u0 & u1 & E & I0 & I1 & Ic & _); try done.
    + apply newEntry_ThreadId.
    + apply newEntry_ThreadId.
    + left. split; [by apply caller_at_new | done].
    + left. split; [by apply caller_at_new | done].
    + rewrite E in Hf. cbn [forallb] in Hf.
      apply andb_prop in Hf as [Hf0 Hf1]. apply andb_prop in Hf1 as [Hf1 _].
      destruct (thread_inv_finished _ _ _ _ _ _ _ I0 Hf0) as (p0 & Hp0 & Hl0).
      destruct (thread_inv_finished _ _ _ _ _ _ _ I1 Hf1) as (p1 & Hp1 & Hl1).
      by exists p0, p1.
  - destruct (two_threads_inv PkgLog.ThreadId sched' true tid0 tid1
                (Scenario.built_log g tid0 c0) (Scenario.built_log g tid1 c1)
                (buffered sg tid0) (buffered sg tid1)
                (Scenario.caller_log g tid0 [c0])
                (Scenario.caller_log g tid1 [c1]) sg)
      as (u0 & u1 & E & I0 & I1 & Ic & _); try done.
    + apply log_newEntry_ThreadId.
    + apply log_newEntry_ThreadId.
    + left. split; [by apply caller_log_at_new | done].
    + left. split; [by apply caller_log_at_new | done].
    + rewrite E in Hf'. cbn [forallb] in Hf'.
      apply andb_prop in Hf' as [Hf0 Hf1]. apply andb_prop in Hf1 as [Hf1 _].
      destruct (thread_inv_finished _ _ _ _ _ _ _ I0 Hf0) as (p0 & Hp0 & Hl0).
      destruct (thread_inv_finished _ _ _ _ _ _ _ I1 Hf1) as (p1 & Hp1 & Hl1).
      by exists p0, p1.
Qed.

Lemma distinct_ids_never_interfere_witness :
  let r := run_schedule Scenario.racy
             [Scenario.caller Scenario.bothCallbacks "a" [Scenario.info "m"];
              Scenario.caller Scenario.bothCallbacks "b" [Scenario.error "n"]]
             Scenario.twoIds in
  let r' := run_schedule Scenario.racy_log
              [Scenario.caller_log Scenario.plain_log "a" [Scenario.info "m"];
               Scenario.caller_log Scenario.plain_log "b" [Scenario.error "n"]]
              Scenario.twoIds_log in
  (exists p0 p1,
     logs r.2 !! "a" = Some (buffered Scenario.twoIds "a" ++ [p0]) /\
     entryAt r.2 p0 =
       Scenario.built Scenario.bothCallbacks "a" (Scenario.info "m") /\
     logs r.2 !! "b" = Some (buffered Scenario.twoIds "b" ++ [p1]) /\
     entryAt r.2 p1 =
       Scenario.built Scenario.bothCallbacks "b" (Scenario.error "n") /\
     calls r.2 = calls Scenario.twoIds) /\
  (exists p0 p1,
     logs r'.2 !! "a" = Some (buffered Scenario.twoIds_log "a" ++ [p0]) /\
     entryAt r'.2 p0 =
       Scenario.built_log Scenario.plain_log "a" (Scenario.info "m") /\
     logs r'.2 !! "b" = Some (buffered Scenario.twoIds_log "b" ++ [p1]) /\
     entryAt r'.2 p1 =
       Scenario.built_log Scenario.plain_log "b" (Scenario.error "n") /\
     calls r'.2 = calls Scenario.twoIds_log).
Proof.
  apply (distinct_ids_never_interfere Scenario.bothCallbacks Scenario.plain_log
           "a" "b" (Scenario.info "m") (Scenario.error "n")
           Scenario.racy Scenario.racy_log Scenario.twoIds Scenario.twoIds_log).
  - discriminate.
  - reflexivity.
  - reflexivity.
  - reflexivity.
  - vm_compute. reflexivity.
  - vm_compute. reflexivity.
Defined.

(** ** What reaches the error callback *)

Section ErrorCallbackFacts.
Import PkgLogger.

Lemma map_filter_swap {A B} (g : A -> B) (f : B -> bool) (xs : list A) :
  map g (List.filter (fun x => f (g x)) xs) = List.filter f (map g xs).
Proof.
  induction xs as [| x xs IH]; [done |]. simpl.
  destruct (f (g x)); simpl; by rewrite IH.
Qed.

Lemma filter_built_level l threadId cs :
  List.filter (fun e => String.eqb (Level e) "Error")
    (map (Scenario.built l threadId) cs) =
  map (Scenario.built l threadId)
    (List.filter (fun c => logLevel_eqb (c_level c) levelError) cs).
Proof.
  induction cs as [| c cs IH]; [done |]. simpl.
  unfold Scenario.built at 1. rewrite newEntry_Level.
  unfold logLevel_eqb at 1. cbn [levelError level_name].
  destruct (String.eqb (level_name (c_level c)) "Error"); simpl;
    by rewrite IH.
Qed.
End ErrorCallbackFacts.

(** X18. The error callback receives the Error calls and nothing else:
    after N record calls under a thread identifier that had no buffered
    entries, none suppressed, a finish with the error callback configured
    invokes it exactly when one of the calls was made at level Error, and
    the entries it hands over, read back, are the entries built from the
    Error calls in call order; Info and Debug calls never reach it. *)
Theorem error_callback_receives_error_calls
    (l : PkgLogger.Logger) (kind : logKind) (threadId route : string)
    (cs : list RecordCall) (status duration now : Z) (st : PkgLogger.St) :
  PkgLogger.OnError l = true ->
  forallb (fun c => negb (Scenario.suppressed l c)) cs = true ->
  buffered st threadId = [] ->
  let r := exec (let* _ := Scenario.record_all l threadId cs in
                 PkgLogger.end_ l kind threadId route status duration now)
             st in
  let news := drop (length (calls st)) (calls r.2) in
  let errorCalls :=
    List.filter (fun c => logLevel_eqb (c_level c) levelError) cs in
  length (Scenario.errorEntries news) =
    (if Nat.eqb (length errorCalls) 0 then 0 else 1) /\
  map (entryAt r.2) (concat (Scenario.errorEntries news)) =
    map (Scenario.built l threadId) errorCalls.
Proof.
  intros He Hs Hb. cbv zeta. rewrite exec_bind.
  destruct (record_all_exec l threadId cs st Hs) as (_ & Hh & Hb1 & Hc & _).
  rewrite Hb in Hb1. cbn [app] in Hb1.
  set (st1 := (exec (Scenario.record_all l threadId cs) st).2) in *.
  cbn [fst snd].
  assert (Herr : map (entryAt st1) (errorsOf st1 (buffered st1 threadId)) =
                 map (Scenario.built l threadId)
                   (List.filter
                      (fun c => logLevel_eqb (c_level c) levelError) cs)).
  { rewrite Hb1. unfold errorsOf.
    rewrite (map_filter_swap (entryAt st1)
               (fun e => String.eqb (PkgLogger.Level e) "Error")).
    rewrite <- (length_map (Scenario.built l threadId) cs).
    rewrite (entries_of_fresh st1 _ Hh (heap st) _ eq_refl).
    apply filter_built_level. }
  assert (Hent : forall p, entryAt
    (exec (PkgLogger.end_ l kind threadId route status duration now) st1).2 p
    = entryAt st1 p).
  { intros p. unfold entryAt. by rewrite end_heap. }
  rewrite (map_ext _ _ Hent).
  assert (Hlen : length (errorsOf st1 (buffered st1 threadId)) =
                 length (List.filter
                   (fun c => logLevel_eqb (c_level c) levelError) cs)).
  { by rewrite <- (length_map (entryAt st1)), Herr, length_map. }
  rewrite <- Hlen, <- Herr. clear Herr Hlen.
  rewrite end_exec. cbv zeta. rewrite He, <- Hc.
  destruct (errorsOf st1 (buffered st1 threadId)) as [| p rest] eqn:Ef.
  - cbn [PkgLogger.isNil negb andb length Nat.eqb].
    destruct (_ && _); cbn [snd calls]; rewrite ?drop_all; [done |].
    rewrite drop_app_length. by destruct (PkgLogger.OnLogEvent l).
  - assert (Hl : Nat.eqb (length (buffered st1 threadId)) 0 = false).
    { apply Nat.eqb_neq. intros H0.
      pose proof (errorsOf_sub st1 (buffered st1 threadId)) as Hle.
      rewrite Ef in Hle. simpl in Hle. lia. }
    rewrite Hl, andb_false_r. cbn [PkgLogger.isNil negb andb snd calls].
    rewrite <- app_assoc, drop_app_length.
    destruct (PkgLogger.OnLogEvent l); cbn; by rewrite app_nil_r.
Qed.

Lemma error_callback_receives_error_calls_witness :
  let l := Scenario.bothCallbacks in
  let cs := Scenario.fourCalls in
  let r := exec (let* _ := Scenario.record_all l "t" cs in
                 PkgLogger.end_ l kindSession "t" "job" 0 0 7)
             Scenario.twoIds in
  let news := drop (length (calls Scenario.twoIds)) (calls r.2) in
  let errorCalls :=
    List.filter (fun c => logLevel_eqb (c_level c) levelError) cs in
  length (Scenario.errorEntries news) =
    (if Nat.eqb (length errorCalls) 0 then 0 else 1) /\
  map (entryAt r.2) (concat (Scenario.errorEntries news)) =
    map (Scenario.built l "t") errorCalls.
Proof.
  apply (error_callback_receives_error_calls Scenario.bothCallbacks kindSession
           "t" "job" Scenario.fourCalls 0 0 7 Scenario.twoIds); reflexivity.
Defined.

(** X19. The entry [NewId] records for a generator error stays under the
    empty thread identifier: under the invariant, a finish of any other
    identifier, the new session's among them, invokes the callbacks exactly
    as if the error had not happened and does not remove the entry, which
    remains buffered until the empty identifier itself is finished. *)
Theorem generator_error_entry_stays_buffered
    (l : PkgLogger.Logger) (kind : logKind) (newId msg threadId route : string)
    (status duration now : Z) (st : PkgLogger.St) :
  store_inv PkgLogger.ThreadId st ->
  threadId <> "" ->
  let r := exec (let* _ := PkgLogger.NewId newId (Some msg) in
                 PkgLogger.end_ l kind threadId route status duration now)
             st in
  let alone := exec (PkgLogger.end_ l kind threadId route status duration now)
                 st in
  logs r.2 !! "" = Some (buffered st "" ++ [length (heap st)]) /\
  PkgLogger.Level (entryAt r.2 (length (heap st))) = "Error" /\
  PkgLogger.Message (entryAt r.2 (length (heap st))) =
    ("couldn't generate UUID for logger thread: " ++ msg)%string /\
  calls r.2 = calls alone.2.
Proof.
  intros Hinv Hne. cbv zeta. rewrite exec_bind. unfold PkgLogger.NewId.
  rewrite exec_bind, logUUIDError_exec. cbn [exec fst snd].
  set (st1 := mkState _ _ _).
  assert (Hb : buffered st1 threadId = buffered st threadId).
  { subst st1. by apply buffered_insert_ne. }
  assert (Hat : entryAt
    (exec (PkgLogger.end_ l kind threadId route status duration now) st1).2
    (length (heap st)) =
    PkgLogger.mkEntry "" "Error" "" ""
      ("couldn't generate UUID for logger thread: " ++ msg) 0 []).
  { unfold entryAt. rewrite end_heap. subst st1. simpl.
    by rewrite list_lookup_middle. }
  split; [| split; [| split]].
  - rewrite end_logs, lookup_delete_ne by done. subst st1. simpl.
    by rewrite lookup_insert_eq.
  - by rewrite Hat.
  - by rewrite Hat.
  - rewrite !end_exec. cbv zeta. rewrite Hb.
    assert (He : errorsOf st1 (buffered st threadId) =
                 errorsOf st (buffered st threadId)).
    { subst st1. apply errorsOf_grow. by apply buffered_valid. }
    rewrite He. subst st1. cbn [calls].
    by repeat match goal with |- context [if ?b then _ else _] => destruct b end.
Qed.

Lemma generator_error_entry_stays_buffered_witness :
  let r := exec (let* _ := PkgLogger.NewId "" (Some "no entropy") in
                 PkgLogger.end_ Scenario.bothCallbacks kindRequest "b" "/r"
                   200 5 7) Scenario.twoIds in
  let alone := exec (PkgLogger.end_ Scenario.bothCallbacks kindRequest "b" "/r"
                       200 5 7) Scenario.twoIds in
  logs r.2 !! "" =
    Some (buffered Scenario.twoIds "" ++ [length (heap Scenario.twoIds)]) /\
  PkgLogger.Level (entryAt r.2 (length (heap Scenario.twoIds))) = "Error" /\
  PkgLogger.Message (entryAt r.2 (length (heap Scenario.twoIds))) =
    ("couldn't generate UUID for logger thread: " ++ "no entropy")%string /\
  calls r.2 = calls alone.2.
Proof.
  apply (generator_error_entry_stays_buffered Scenario.bothCallbacks
           kindRequest "" "no entropy" "b" "/r" 200 5 7 Scenario.twoIds).
  - apply (@bool_decide_unpack _ (store_inv_dec _ _)). vm_compute. exact I.
  - discriminate.
Defined.
